(** * Event and fallback dispatch of the skill framework
    ([mycroft/skills/core.py])

    A shallow embedding of [MycroftSkill] and [FallbackSkill]: the event
    binder ([add_event] and the wrapper it builds), the intent registry
    entry points ([register_intent], [enable_intent],
    [register_entity_file]), the shared fallback registry
    ([_register_fallback], [remove_fallback], the dispatcher built by
    [make_intent_failure_handler]) and [shutdown].

    The code is Python 2.  Effects are modelled by a state-and-exception
    monad; everything the code does to the outside (messages put on the
    bus, log lines, handler invocations, calls to the settings store) is
    appended to a trace, in program order.

    Handlers are arbitrary: a call returns or raises, and acts on a
    world of which nothing is assumed, so a handler may answer
    differently each time it is called.  Priorities and skill ids are
    Python integers ([Z]).  The dictionary of fallback handlers is a
    [gmap]; the order in which Python 2 iterates it is left open. *)

From Stdlib Require Import ZArith String List Lia.
From stdpp Require Import base decidable option list gmap strings pretty sorting.

Local Open Scope string_scope.
Local Open Scope Z_scope.
Local Open Scope list_scope.

(** ** Data *)

(** Python 2 has two kinds of string: [str], a string of bytes, and
    [unicode], a string of code points.  [str(u)] of a [unicode] encodes
    it as ASCII: it gives the characters when every code point is below
    128 and raises [UnicodeEncodeError] otherwise. *)
Inductive text :=
| Str (s : string)
| Unicode (codes : list N).

Coercion Str : string >-> text.

Definition str_text (t : text) : option string :=
  match t with
  | Str s => Some s
  | Unicode codes =>
      if forallb (fun c => (c <? 128)%N) codes
      then Some (string_of_list_ascii (map Ascii.ascii_of_N codes))
      else None
  end.

(** Values of the [data] dictionary of a bus message. *)
Inductive value :=
| VStr (s : string)
| VUnicode (codes : list N)
| VBool (b : bool)
| VPairs (l : list (string * string))
| VGroups (l : list (list string)).

Definition text_value (t : text) : value :=
  match t with
  | Str s => VStr s
  | Unicode codes => VUnicode codes
  end.

(** [Message(type, data)]; [Message(type)] has the empty dictionary. *)
Record Message := Msg {
  msg_type : string;
  msg_data : gmap string value
}.

(** A handler is a Python function or bound method (the docstring of
    [get_handler_name] says "handler (function)"); both have a
    [__name__], so that [get_handler_name] returns.  [h_ident] is the
    object's identity, [h_name] its [__name__], [h_self_name] the [name]
    of its [__self__] when it is bound to an object that has one, and
    [h_argspec] is [len(getargspec(handler).args)], which counts [self]
    for a method. *)
Record handler := Handler {
  h_ident : nat;
  h_name : string;
  h_self_name : option string;
  h_argspec : nat
}.

#[global] Instance handler_eq_dec : EqDecision handler.
Proof. solve_decision. Defined.

(** Exceptions: instances of Python's [Exception], the class that
    [except Exception] catches ([SystemExit], [KeyboardInterrupt] and
    [GeneratorExit], which it does not catch, are left out).  An
    exception is built from one string, of either kind: [exn_message] is
    that string, which is what [e.message] gives, and [str(e)] is
    [str] of it.  [raise TypeError] builds an instance with the empty
    message; the [UnicodeEncodeError] of a failed [str], which is built
    from several arguments, has the empty [message] too. *)
Inductive exn_class :=
| TypeError | ValueError | AttributeError | UnicodeEncodeError | OtherError.

#[global] Instance exn_class_eq_dec : EqDecision exn_class.
Proof. solve_decision. Defined.

Record exn := Exn {
  exn_cls : exn_class;
  exn_message : text
}.

(** What a call of a handler does: return a value, of which the code
    only ever reads the truth value, or raise. *)
Inductive outcome :=
| Return (truthy : bool)
| Raise (e : exn).

(** Actual arguments of a handler call: the owning skill ([self]) or the
    delivered message. *)
Inductive arg :=
| ArgSelf (owner : string)
| ArgMessage (m : Message).

Inductive log_level := LDebug | LInfo | LWarning | LError.

(** The trace. *)
Inductive event :=
| EvEmit (m : Message)
| EvCall (h : handler) (args : list arg) (o : outcome)
| EvLog (lvl : log_level) (text : string)
| EvSettingsStore (owner : string)
| EvSettingsNotAlive (owner : string)
| EvEnclosureRegister (owner : string).

(** The closure [wrapper] that [add_event] defines.  Every evaluation of
    the [def] makes a new function object: [w_id] is its identity.  The
    closure captures [self] (of which it reads [name]), [handler] and
    [need_self]. *)
Record wrapper := Wrapper {
  w_id : nat;
  w_owner : string;
  w_handler : handler;
  w_need_self : bool
}.

#[global] Instance wrapper_eq_dec : EqDecision wrapper.
Proof. solve_decision. Defined.

(** An adapt [Intent]: what [intent_parser.__dict__] holds. *)
Record Intent := MkIntent {
  intent_name : string;
  intent_requires : list (string * string);
  intent_at_least_one : list (list string);
  intent_optional : list (string * string)
}.

#[global] Instance Intent_eq_dec : EqDecision Intent.
Proof. solve_decision. Defined.

(** What [Intent(name, requires, at_least_one, optional)] holds when
    its arguments come from a dictionary with [get]: each is a value of
    the payload or [None]. *)
Record opened_intent := Opened {
  opened_name : option value;
  opened_requires : option value;
  opened_at_least_one : option value;
  opened_optional : option value
}.

(** The first argument of [register_intent]: an [IntentBuilder] (given
    by the [Intent] its [build()] returns), an [Intent], or anything
    else. *)
Inductive intent_parser :=
| IsIntentBuilder (built : Intent)
| IsIntent (i : Intent)
| IsOther.

(** A skill instance.  [events] is [None] after [shutdown]. *)
Record Skill := MkSkill {
  name : string;
  skill_id : Z;
  vocab_dir : string;
  registered_intents : list (string * Intent);
  events : option (list (string * wrapper));
  stop : handler;
  instance_fallback_handlers : list handler
}.

(** [self.name], for where a parameter called [name] hides the field. *)
Definition self_name (self : Skill) : string := name self.

Definition emitted (tr : list event) : list Message :=
  omap (fun ev => match ev with EvEmit m => Some m | _ => None end) tr.

Definition calls (tr : list event) : list (handler * list arg * outcome) :=
  omap (fun ev => match ev with EvCall h a o => Some (h, a, o) | _ => None end) tr.

(** [get_handler_name] *)
Definition get_handler_name (h : handler) : string :=
  let name := "" in
  let name := match h_self_name h with
              | Some owner => name +:+ owner +:+ "."
              | None => name
              end in
  name +:+ h_name h.

(** Python's [sub in s] and [s.replace(old, new)] on strings.  [replace]
    scans from the left and skips over each occurrence it has replaced;
    [skip] counts the characters of the current occurrence still to be
    passed.  [old] is not empty. *)
Fixpoint str_in (sub s : string) : bool :=
  String.prefix sub s ||
  match s with
  | EmptyString => false
  | String _ s' => str_in sub s'
  end.

Fixpoint replace_from (old new : string) (skip : nat) (s : string) : string :=
  match s with
  | EmptyString => EmptyString
  | String c s' =>
      match skip with
      | S k => replace_from old new k s'
      | O => if String.prefix old s
             then new +:+ replace_from old new (String.length old - 1) s'
             else String c (replace_from old new 0 s')
      end
  end.

Definition str_replace (old new s : string) : string :=
  replace_from old new 0 s.

(** [list.remove(x)]: the first element equal to [x] goes. *)
Fixpoint remove_first {A} `{EqDecision A} (x : A) (l : list A) : list A :=
  match l with
  | [] => []
  | y :: l' => if decide (y = x) then l' else y :: remove_first x l'
  end.

(** The order of [sorted(..., key=operator.itemgetter(0))]. *)
Definition by_priority (a b : Z * handler) : Prop := a.1 ≤ b.1.

#[global] Instance by_priority_dec : RelDecision by_priority.
Proof. intros a b. unfold by_priority. apply _. Defined.

#[global] Instance by_priority_trans : Transitive by_priority.
Proof. intros a b c. unfold by_priority. lia. Qed.

#[global] Instance by_priority_total : Total by_priority.
Proof. intros a b. unfold by_priority. lia. Qed.

(** What running a piece of code gives: a value, or an exception on its
    way up. *)
Inductive result (A : Type) :=
| Ok (a : A)
| Raised (e : exn).
Arguments Ok {A} a.
Arguments Raised {A} e.

(** The state: the trace, the subscriptions held by the bus, the
    counter that gives closures their identity, the class attribute
    [FallbackSkill.fallback_handlers] shared by all skills, the skill
    instance whose methods run ([self]), and the handlers' world. *)
Record state (world : Type) := State {
  st_trace : list event;
  st_listeners : list (string * wrapper);
  st_next_wrapper : nat;
  fallback_handlers : gmap Z handler;
  st_self : Skill;
  st_world : world
}.

Arguments State {world} _ _ _ _ _ _.
Arguments st_trace {world} _.
Arguments st_listeners {world} _.
Arguments st_next_wrapper {world} _.
Arguments fallback_handlers {world} _.
Arguments st_self {world} _.
Arguments st_world {world} _.

(** ** Sample handlers and skills

    The concrete inputs on which the properties are exercised.  The
    world of these handlers is the number of calls made so far. *)
Module Sample.

(** Bound methods of a skill named DemoSkill: [handle_query(self,
    message)], [handle_fail(self, message)], [handle_tick(self)] and
    [stop(self)]. *)
Definition handle_query : handler :=
  Handler 1 "handle_query" (Some "DemoSkill") 2.
Definition handle_fail : handler :=
  Handler 2 "handle_fail" (Some "DemoSkill") 2.
Definition handle_tick : handler :=
  Handler 4 "handle_tick" (Some "DemoSkill") 1.
Definition stop_method : handler :=
  Handler 6 "stop" (Some "DemoSkill") 1.

(** Plain functions: [handler_method], declared with star arguments
    only as the [handler_method] of the decorators is, which stands for
    a decorated method that takes the owner alone; [callback], declared
    with no argument; and [failing_method], declared as
    [handler_method] is, which raises an error of its own. *)
Definition handler_method : handler := Handler 3 "handler_method" None 0.
Definition callback : handler := Handler 5 "callback" None 0.
Definition failing_method : handler := Handler 7 "handler_method" None 0.

(** Fallback handlers of four skills, and a function that two skills
    register. *)
Definition fallback_low : handler :=
  Handler 10 "handle_fallback" (Some "LowSkill") 2.
Definition fallback_broken : handler :=
  Handler 11 "handle_fallback" (Some "BrokenSkill") 2.
Definition fallback_mid : handler :=
  Handler 50 "handle_fallback" (Some "MidSkill") 2.
Definition fallback_high : handler :=
  Handler 90 "handle_fallback" (Some "HighSkill") 2.
Definition shared_answer : handler := Handler 12 "answer" None 1.

Definition behaviour (h : handler) (args : list arg) (calls_so_far : nat)
    : outcome * nat :=
  (if (h_ident h =? 2)%nat || (h_ident h =? 7)%nat
   then Raise (Exn OtherError "boom")
   else if (h_ident h =? 11)%nat then Raise (Exn OtherError "no network")
   else if (h_ident h =? 3)%nat then
     match args with
     | [_; _] =>
         Raise (Exn TypeError
                    "handler_method() takes exactly 1 argument (2 given)")
     | _ => Return true
     end
   else if (h_ident h =? 4)%nat || (h_ident h =? 50)%nat
           || (h_ident h =? 90)%nat
   then Return true
   else Return false,
   S calls_so_far).

Definition path_join (a b : string) : string := a +:+ "/" +:+ b.

Definition utterance : Message :=
  Msg "intent_failure" {[ "utterance" := VStr "what is the weather" ]}.

Definition weekday : Intent :=
  MkIntent "7:WeekdayIntent" [("WeekdayKeyword", "WeekdayKeyword")] [] [].

Definition demo : Skill :=
  MkSkill "DemoSkill" 7 "/opt/mycroft/skills/demo/vocab/en-us"
          [("WeekdayIntent", weekday)] (Some []) stop_method [].

Definition initial (reg : gmap Z handler) (self : Skill) : state nat :=
  State [] [] 0 reg self 0%nat.

(** The registry after registrations at priorities 90, 10 and 50. *)
Definition chain : gmap Z handler :=
  <[50 := fallback_mid]> (<[10 := fallback_low]> (<[90 := fallback_high]> ∅)).

(** A registry whose first candidate raises. *)
Definition broken_chain : gmap Z handler :=
  <[50 := fallback_mid]> (<[10 := fallback_broken]> ∅).

(** DemoSkill after binding [handle_query] to an event and registering
    [fallback_low] at priority 10. *)
Definition query_wrapper : wrapper := Wrapper 0 "DemoSkill" handle_query false.

Definition bound : state nat :=
  State [] [("7:QueryIntent", query_wrapper)] 1
        (<[10 := fallback_low]> ∅)
        (MkSkill "DemoSkill" 7 "/opt/mycroft/skills/demo/vocab/en-us"
                 [] (Some [("7:QueryIntent", query_wrapper)]) stop_method
                 [fallback_low])
        0%nat.

(** DemoSkill has registered [shared_answer] at priority 20; another
    skill had registered the same function at priority 10. *)
Definition shared : state nat :=
  State [] [] 0
        (<[20 := shared_answer]> (<[10 := shared_answer]> ∅))
        (MkSkill "DemoSkill" 7 "/opt/mycroft/skills/demo/vocab/en-us"
                 [] (Some []) stop_method [shared_answer])
        0%nat.

(** A fallback handler that raises [Exception(u'caf\xe9')], an
    exception built from a [unicode] string with a character outside
    ASCII; the other handlers behave as in [behaviour]. *)
Definition cafe : exn := Exn OtherError (Unicode [99; 97; 102; 233]%N).

Definition fallback_accent : handler :=
  Handler 13 "handle_fallback" (Some "CafeSkill") 2.

Definition behaviour_accent (h : handler) (args : list arg)
    (calls_so_far : nat) : outcome * nat :=
  if (h_ident h =? 13)%nat then (Raise cafe, S calls_so_far)
  else behaviour h args calls_so_far.

(** A registry whose first candidate raises that exception and whose
    second would handle the utterance, and one in which no candidate
    handles it. *)
Definition accent_chain : gmap Z handler :=
  <[50 := fallback_mid]> (<[10 := fallback_accent]> ∅).

Definition quiet_chain : gmap Z handler :=
  <[20 := fallback_accent]> (<[10 := fallback_low]> ∅).

(** An intent as a skill hands it to [register_intent], and DemoSkill
    with a second recorded intent. *)
Definition date_intent : Intent :=
  MkIntent "DateIntent" [("DateKeyword", "DateKeyword")] [] [].

Definition two_intents : Skill :=
  MkSkill "DemoSkill" 7 "/opt/mycroft/skills/demo/vocab/en-us"
          [("WeekdayIntent", weekday);
           ("DateIntent",
            MkIntent "7:DateIntent" [("DateKeyword", "DateKeyword")] [] [])]
          (Some []) stop_method [].

(** The bus also holds a subscription of another skill, and the
    registry the fallbacks of three skills, DemoSkill's among them. *)
Definition other_wrapper : wrapper := Wrapper 1 "ClockSkill" handle_tick false.

Definition crowded : state nat :=
  State [] [("3:TimeIntent", other_wrapper); ("7:QueryIntent", query_wrapper)]
        2 chain
        (MkSkill "DemoSkill" 7 "/opt/mycroft/skills/demo/vocab/en-us"
                 [] (Some [("7:QueryIntent", query_wrapper)]) stop_method
                 [fallback_low])
        0%nat.

(** DemoSkill with a [stop] that raises. *)
Definition stuck : state nat :=
  State [] [("7:QueryIntent", query_wrapper)] 1 ∅
        (MkSkill "DemoSkill" 7 "/opt/mycroft/skills/demo/vocab/en-us"
                 [] (Some [("7:QueryIntent", query_wrapper)]) failing_method
                 [])
        0%nat.

(** The lines of a vocabulary file: an entry with two aliases, a line
    without text and an entry of its own. *)
Definition voc_file : list string :=
  ["hello|hi|good morning" +:+ String (Ascii.ascii_of_nat 10) EmptyString;
   String (Ascii.ascii_of_nat 10) EmptyString;
   "bye"].

End Sample.

Section Core.

(** Whatever the handlers act on, and what a call does to it. *)
Variable world : Type.
Variable call : handler -> list arg -> world -> outcome * world.

(** Python 2 fixes no iteration order for a dictionary: [items] is any
    enumeration of the entries. *)
Variable items : gmap Z handler -> list (Z * handler).
Hypothesis items_perm : forall reg, items reg ≡ₚ map_to_list reg.

(** [os.path.join] *)
Variable join : string -> string -> string.

Local Abbreviation state := (state world).

Definition set_trace (tr : list event) (s : state) : state :=
  State tr (st_listeners s) (st_next_wrapper s) (fallback_handlers s)
        (st_self s) (st_world s).
Definition set_listeners (l : list (string * wrapper)) (s : state) : state :=
  State (st_trace s) l (st_next_wrapper s) (fallback_handlers s)
        (st_self s) (st_world s).
Definition set_next_wrapper (n : nat) (s : state) : state :=
  State (st_trace s) (st_listeners s) n (fallback_handlers s)
        (st_self s) (st_world s).
Definition set_fallback_handlers (reg : gmap Z handler) (s : state) : state :=
  State (st_trace s) (st_listeners s) (st_next_wrapper s) reg
        (st_self s) (st_world s).
Definition set_self (self : Skill) (s : state) : state :=
  State (st_trace s) (st_listeners s) (st_next_wrapper s)
        (fallback_handlers s) self (st_world s).
Definition set_world (w : world) (s : state) : state :=
  State (st_trace s) (st_listeners s) (st_next_wrapper s)
        (fallback_handlers s) (st_self s) w.

Definition set_registered_intents (l : list (string * Intent))
    (self : Skill) : Skill :=
  MkSkill (name self) (skill_id self) (vocab_dir self) l (events self)
          (stop self) (instance_fallback_handlers self).
Definition set_events (evs : option (list (string * wrapper)))
    (self : Skill) : Skill :=
  MkSkill (name self) (skill_id self) (vocab_dir self)
          (registered_intents self) evs (stop self)
          (instance_fallback_handlers self).
Definition set_instance_fallback_handlers (l : list handler)
    (self : Skill) : Skill :=
  MkSkill (name self) (skill_id self) (vocab_dir self)
          (registered_intents self) (events self) (stop self) l.

(** ** The monad *)

Definition M (A : Type) : Type := state -> result A * state.

Definition ret {A} (a : A) : M A := fun s => (Ok a, s).

Definition bind {A B} (m : M A) (k : A -> M B) : M B :=
  fun s => match m s with
           | (Ok a, s') => k a s'
           | (Raised e, s') => (Raised e, s')
           end.

Definition raise {A} (e : exn) : M A := fun s => (Raised e, s).

(** [try: body  except <classes>: handler] *)
Definition try_except {A} (body : M A) (catches : exn -> bool)
    (handler : exn -> M A) : M A :=
  fun s => match body s with
           | (Ok a, s') => (Ok a, s')
           | (Raised e, s') =>
               if catches e then handler e s' else (Raised e, s')
           end.

Notation "x <- c1 ;; c2" := (bind c1 (fun x => c2))
  (at level 20, c1 at level 99, c2 at level 200, only parsing).
Notation "c1 ;; c2" := (bind c1 (fun _ => c2))
  (at level 100, c2 at level 200, right associativity, only parsing).

Definition get {A} (f : state -> A) : M A := fun s => (Ok (f s), s).
Definition modify (f : state -> state) : M unit := fun s => (Ok tt, f s).
Definition modify_self (f : Skill -> Skill) : M unit :=
  modify (fun s => set_self (f (st_self s)) s).

(** [except Exception] and the bare [except] catch every exception of
    the model; [except TypeError] catches the one class. *)
Definition except_Exception (e : exn) : bool := true.
Definition except_TypeError (e : exn) : bool :=
  bool_decide (exn_cls e = TypeError).

Definition record (ev : event) : M unit :=
  modify (fun s => set_trace (st_trace s ++ [ev]) s).

Definition log (lvl : log_level) (text : string) : M unit :=
  record (EvLog lvl text).

(** Modelled from the spec: [emit] of the bus client, which is not part
    of these sources; it publishes a message. *)
Definition emit (m : Message) : M unit := record (EvEmit m).

(** Modelled from the spec: [on] of the bus client; it subscribes a
    callable under an event name. *)
Definition emitter_on (event_name : string) (f : wrapper) : M unit :=
  modify (fun s => set_listeners (st_listeners s ++ [(event_name, f)]) s).

(** Modelled from the spec: [remove] of the bus client; it drops the
    subscription of the callable under the event name, and removing what
    is not subscribed does nothing. *)
Definition emitter_remove (event_name : string) (f : wrapper) : M unit :=
  modify (fun s =>
            set_listeners (remove_first (event_name, f) (st_listeners s)) s).

(** Modelled from the spec: delivery by the bus client; a named message
    goes to the callables subscribed under its name. *)
Definition delivered_to (s : state) (event_name : string) : list wrapper :=
  omap (fun '(e, f) => if decide (e = event_name) then Some f else None)
       (st_listeners s).

(** Modelled from the spec: the settings store, "exposing [store()]". *)
Definition settings_store (owner : string) : M unit :=
  record (EvSettingsStore owner).

(** Calling a handler: the call is recorded with what it did. *)
Definition invoke (h : handler) (args : list arg) : M bool :=
  fun s =>
    let '(o, w) := call h args (st_world s) in
    let s' := set_world w (set_trace (st_trace s ++ [EvCall h args o]) s) in
    match o with
    | Return b => (Ok b, s')
    | Raise e => (Raised e, s')
    end.

(** ** MycroftSkill *)

Definition speak_message (utterance : string) (expect_response : bool)
    : Message :=
  Msg "speak" {[ "utterance" := VStr utterance;
                 "expect_response" := VBool expect_response ]}.

(** [speak]; [self] is the name of the skill. *)
Definition speak (self : string) (utterance : string)
    (expect_response : bool) : M unit :=
  record (EvEnclosureRegister self) ;;
  emit (speak_message utterance expect_response).

Definition handler_start (name : string) : Message :=
  Msg "mycroft.skill.handler.start" {[ "handler" := VStr name ]}.

Definition handler_complete (name : string) : Message :=
  Msg "mycroft.skill.handler.complete" {[ "handler" := VStr name ]}.

Definition handler_complete_exception (name : string) (e : exn) : Message :=
  Msg "mycroft.skill.handler.complete"
      {[ "handler" := VStr name;
         "exception" := text_value (exn_message e) ]}.

(** The [if need_self: ... else: ...] of [wrapper]: the call shape is
    chosen by [len(getargspec(handler).args)]. *)
Definition call_handler (self : string) (handler : handler)
    (need_self : bool) (message : Message) : M unit :=
  if need_self then
    if (h_argspec handler =? 2)%nat then
      invoke handler [ArgSelf self; ArgMessage message] ;; ret tt
    else if (h_argspec handler =? 1)%nat then
      invoke handler [ArgSelf self] ;; ret tt
    else if (h_argspec handler =? 0)%nat then
      try_except
        (invoke handler [ArgSelf self; ArgMessage message] ;; ret tt)
        except_TypeError
        (fun _ => invoke handler [ArgSelf self] ;; ret tt)
    else raise (Exn TypeError "")
  else
    if (h_argspec handler =? 2)%nat then
      invoke handler [ArgMessage message] ;; ret tt
    else if (h_argspec handler =? 1)%nat then
      invoke handler [] ;; ret tt
    else raise (Exn TypeError "").

Definition error_text (self : string) : string :=
  "An error occurred while processing a request in " +:+ self.

(** The body of [wrapper(message)] in [add_event]; [self] is the name of
    the skill the closure captured.  The local [name] is bound by the
    first statement of the [try], which cannot fail on a function or a
    method, so it is bound here before the [try]. *)
Definition wrapper_body (self : string) (handler : handler)
    (need_self : bool) (message : Message) : M unit :=
  let name := get_handler_name handler in
  try_except
    (emit (handler_start name) ;;
     call_handler self handler need_self message ;;
     settings_store self)
    except_Exception
    (fun e =>
       speak self (error_text self) false ;;
       log LError (error_text self) ;;
       emit (handler_complete_exception name e)) ;;
  emit (handler_complete name).

Definition run_wrapper (w : wrapper) (message : Message) : M unit :=
  wrapper_body (w_owner w) (w_handler w) (w_need_self w) message.

(** [def wrapper]: a new function object. *)
Definition def_wrapper : M nat :=
  fun s => (Ok (st_next_wrapper s), set_next_wrapper (S (st_next_wrapper s)) s).

(** [add_event]; [handler] is [None] or a handler. *)
Definition add_event (name : string) (handler : option handler)
    (need_self : bool) : M unit :=
  id <- def_wrapper ;;
  match handler with
  | Some h =>
      self <- get st_self ;;
      let wrapper := Wrapper id (self_name self) h need_self in
      emitter_on name wrapper ;;
      match events self with
      | Some evs => modify_self (set_events (Some (evs ++ [(name, wrapper)])))
      | None => raise (Exn AttributeError
                           "'NoneType' object has no attribute 'append'")
      end
  | None => ret tt
  end.

Definition intent_dict (i : Intent) : gmap string value :=
  {[ "name" := VStr (intent_name i);
     "requires" := VPairs (intent_requires i);
     "at_least_one" := VGroups (intent_at_least_one i);
     "optional" := VPairs (intent_optional i) ]}.

Definition rename_intent (n : string) (i : Intent) : Intent :=
  MkIntent n (intent_requires i) (intent_at_least_one i) (intent_optional i).

(** [register_intent].  The code assigns to [intent_parser.name] and
    records that same object; the record made here holds the object as
    it is after the assignment.  The two agree as long as no two records
    hold one object, as is the case when every registration is given an
    [IntentBuilder], which builds a new object, or an [Intent] that is
    not recorded yet. *)
Definition register_intent (intent_parser : intent_parser)
    (handler : option handler) (need_self : bool) : M unit :=
  intent_parser <- match intent_parser with
                   | IsIntentBuilder built => ret built
                   | IsIntent i => ret i
                   | IsOther =>
                       raise (Exn ValueError "intent_parser is not an Intent")
                   end ;;
  self <- get st_self ;;
  let name := intent_name intent_parser in
  let intent_parser :=
    rename_intent (pretty (skill_id self) +:+ ":" +:+ intent_name intent_parser)
                  intent_parser in
  emit (Msg "register_intent" (intent_dict intent_parser)) ;;
  modify_self (fun self =>
    set_registered_intents
      (registered_intents self ++ [(name, intent_parser)]) self) ;;
  add_event (intent_name intent_parser) handler need_self.

(** [register_entity_file] *)
Definition register_entity_file (entity_file : string) : M unit :=
  if negb (str_in ".entity" entity_file) then
    raise (Exn ValueError ("Invalid entity filename: " +:+ entity_file))
  else
    self <- get st_self ;;
    let name := pretty (skill_id self) +:+ ":"
                +:+ str_replace ".entity" "" entity_file in
    emit (Msg "padatious:register_entity"
              {[ "file_name" := VStr (join (vocab_dir self) entity_file);
                 "name" := VStr name ]}).

(** [enable_intent]: the [for] over [self.registered_intents]; the
    [else] belongs to the [if]. *)
Fixpoint enable_intent_loop (l : list (string * Intent))
    (intent_name : string) : M unit :=
  match l with
  | [] => ret tt
  | (name, intent) :: rest =>
      if String.eqb name intent_name then
        modify_self (fun self =>
          set_registered_intents
            (remove_first (name, intent) (registered_intents self)) self) ;;
        let intent := rename_intent name intent in
        register_intent (IsIntent intent) None false ;;
        log LDebug ("Enabling intent " +:+ intent_name)
      else
        log LError ("Could not enable " +:+ intent_name
                    +:+ ", it hasn't been registered.") ;;
        enable_intent_loop rest intent_name
  end.

Definition enable_intent (intent_name : string) : M unit :=
  self <- get st_self ;;
  enable_intent_loop (registered_intents self) intent_name.

(** [shutdown] of [MycroftSkill] *)
Fixpoint remove_events (evs : list (string * wrapper)) : M unit :=
  match evs with
  | [] => ret tt
  | (e, f) :: rest => emitter_remove e f ;; remove_events rest
  end.

Definition MycroftSkill_shutdown : M unit :=
  self <- get st_self ;;
  settings_store (name self) ;;
  record (EvSettingsNotAlive (name self)) ;;
  match events self with
  | Some evs => remove_events evs
  | None => raise (Exn TypeError "'NoneType' object is not iterable")
  end ;;
  modify_self (set_events None) ;;
  emit (Msg "detach_skill"
            {[ "skill_id" := VStr (pretty (skill_id self) +:+ ":") ]}) ;;
  try_except
    (invoke (stop self) [] ;; ret tt)
    except_Exception
    (fun _ => log LError ("Failed to stop skill: " +:+ name self)).

(** ** FallbackSkill *)

(** The [while priority in cls.fallback_handlers: priority += 1] of
    [_register_fallback].  The registry is finite, so the loop ends
    within [size reg] increments ([probe_finds_free_slot]). *)
Fixpoint probe (fuel : nat) (reg : gmap Z handler) (priority : Z) : Z :=
  match fuel with
  | O => priority
  | S fuel' =>
      if decide (is_Some (reg !! priority))
      then probe fuel' reg (priority + 1)
      else priority
  end.

Definition assigned_priority (reg : gmap Z handler) (priority : Z) : Z :=
  probe (S (size reg)) reg priority.

(** [_register_fallback] *)
Definition _register_fallback (handler : handler) (priority : Z) : M unit :=
  modify (fun s =>
    let priority := assigned_priority (fallback_handlers s) priority in
    set_fallback_handlers (<[priority := handler]> (fallback_handlers s)) s).

(** [register_fallback] *)
Definition register_fallback (handler : handler) (priority : Z) : M unit :=
  modify_self (fun self =>
    set_instance_fallback_handlers
      (instance_fallback_handlers self ++ [handler]) self) ;;
  _register_fallback handler priority.

(** [remove_fallback]: the [for] over [items()], which in Python 2 is a
    list made before the loop; [Some priority] is the entry at which the
    loop deletes and returns, [None] is the loop running out. *)
Fixpoint find_fallback (its : list (Z * handler)) (handler_to_del : handler)
    : option Z :=
  match its with
  | [] => None
  | (priority, handler) :: rest =>
      if decide (handler = handler_to_del) then Some priority
      else find_fallback rest handler_to_del
  end.

Definition remove_fallback (handler_to_del : handler) : M unit :=
  reg <- get fallback_handlers ;;
  match find_fallback (items reg) handler_to_del with
  | Some priority => modify (set_fallback_handlers (delete priority reg))
  | None => log LWarning "Could not remove fallback!"
  end.

(** [remove_instance_handlers]: [stack] is the instance list with its
    last element first, the order in which [pop()] takes them. *)
Fixpoint remove_instance_loop (stack : list handler) : M unit :=
  match stack with
  | [] => ret tt
  | handler :: rest =>
      modify_self (set_instance_fallback_handlers (rev rest)) ;;
      remove_fallback handler ;;
      remove_instance_loop rest
  end.

Definition remove_instance_handlers : M unit :=
  self <- get st_self ;;
  remove_instance_loop (rev (instance_fallback_handlers self)).

(** [shutdown] of [FallbackSkill] *)
Definition FallbackSkill_shutdown : M unit :=
  remove_instance_handlers ;;
  MycroftSkill_shutdown.

(** [sorted(cls.fallback_handlers.items(), key=operator.itemgetter(0))];
    the keys of a dictionary are distinct, so every sorting algorithm
    gives the same list. *)
Definition sorted_items (reg : gmap Z handler) : list (Z * handler) :=
  merge_sort by_priority (items reg).

(** [str(e)] *)
Definition str_exn (e : exn) : M string :=
  match str_text (exn_message e) with
  | Some s => ret s
  | None => raise (Exn UnicodeEncodeError "")
  end.

(** The [for] of the dispatcher; the result says whether the function
    has returned from inside the loop.  The [except] block evaluates
    [str(e)] before it logs, under no [try] of its own. *)
Fixpoint try_fallbacks (hs : list (Z * handler)) (message : Message)
    : M bool :=
  match hs with
  | [] => ret false
  | (_, handler) :: rest =>
      returned <-
        try_except
          (r <- invoke handler [ArgMessage message] ;;
           if r : bool then
             emit (Msg "mycroft.skill.handler.complete"
                       {[ "handler" := VStr "fallback";
                          "fallback_handler"
                          := VStr (get_handler_name handler) ]}) ;;
             ret true
           else ret false)
          except_Exception
          (fun e => rendered <- str_exn e ;;
                    log LInfo ("Exception in fallback: " +:+ rendered) ;;
                    ret false) ;;
      if returned : bool then ret true else try_fallbacks rest message
  end.

(** The [handler(message)] that [make_intent_failure_handler] returns. *)
Definition intent_failure_handler (message : Message) : M unit :=
  emit (Msg "mycroft.skill.handler.start" {[ "handler" := VStr "fallback" ]}) ;;
  reg <- get fallback_handlers ;;
  returned <- try_fallbacks (sorted_items reg) message ;;
  if returned : bool then ret tt
  else
    emit (Msg "complete_intent_failure" ∅) ;;
    log LWarning "No fallback could handle intent." ;;
    emit (Msg "mycroft.skill.handler.complete"
              {[ "handler" := VStr "fallback";
                 "exception" := VStr "No fallback could handle intent." ]}).

(** The outcomes of calling the handlers of [hs] one after the other
    with the message, each in the world the one before it left, and the
    world after the last. *)
Fixpoint call_in_order (hs : list (Z * handler)) (message : Message)
    (w : world) : list outcome * world :=
  match hs with
  | [] => ([], w)
  | ph :: rest =>
      let '(o, w') := call ph.2 [ArgMessage message] w in
      let '(os, w'') := call_in_order rest message w' in
      (o :: os, w'')
  end.

(** The messages of the dispatcher, for the statements. *)
Definition fallback_start : Message :=
  Msg "mycroft.skill.handler.start" {[ "handler" := VStr "fallback" ]}.

Definition fallback_complete (handler : handler) : Message :=
  Msg "mycroft.skill.handler.complete"
      {[ "handler" := VStr "fallback";
         "fallback_handler" := VStr (get_handler_name handler) ]}.

Definition fallback_exhausted : Message :=
  Msg "mycroft.skill.handler.complete"
      {[ "handler" := VStr "fallback";
         "exception" := VStr "No fallback could handle intent." ]}.

(** What the dispatcher's loop leaves in the trace for one candidate
    that did what [o] says: the call and, when it raised an exception
    that [str] renders, the log line. *)
Definition fallback_events (message : Message) (ph : Z * handler)
    (o : outcome) : list event :=
  EvCall ph.2 [ArgMessage message] o ::
  match o with
  | Raise e =>
      match str_text (exn_message e) with
      | Some rendered =>
          [EvLog LInfo ("Exception in fallback: " +:+ rendered)]
      | None => []
      end
  | Return _ => []
  end.

Definition fallback_exhausted_events : list event :=
  [EvEmit (Msg "complete_intent_failure" ∅);
   EvLog LWarning "No fallback could handle intent.";
   EvEmit fallback_exhausted].

(** A candidate after which the loop goes on to the next: it returned a
    false value, or it raised an exception that [str] renders. *)
Definition passes (o : outcome) : Prop :=
  match o with
  | Return b => b = false
  | Raise e => is_Some (str_text (exn_message e))
  end.

Definition after_events (s : state) (evs : list event) (w : world) : state :=
  set_world w (set_trace (st_trace s ++ evs) s).

(** ** Further methods of MycroftSkill *)

(** [_unique_name] *)
Definition _unique_name (self : Skill) (name : string) : string :=
  pretty (skill_id self) +:+ ":" +:+ name.

Definition detach_intent_message (name : string) : Message :=
  Msg "detach_intent" {[ "intent_name" := VStr name ]}.

(** [detach]: the [for] over [self.registered_intents]. *)
Fixpoint detach_loop (self : Skill) (l : list (string * Intent)) : M unit :=
  match l with
  | [] => ret tt
  | (name, intent) :: rest =>
      let name := pretty (skill_id self) +:+ ":" +:+ name in
      emit (Msg "detach_intent" {[ "intent_name" := VStr name ]}) ;;
      detach_loop self rest
  end.

Definition detach : M unit :=
  self <- get st_self ;;
  detach_loop self (registered_intents self).

(** [disable_intent] *)
Definition disable_intent (intent_name : string) : M unit :=
  log LDebug ("Disabling intent " +:+ intent_name) ;;
  self <- get st_self ;;
  let name := pretty (skill_id self) +:+ ":" +:+ intent_name in
  emit (Msg "detach_intent" {[ "intent_name" := VStr name ]}).

(** [register_intent_file] *)
Definition register_intent_file (intent_file : string)
    (handler : option handler) (need_self : bool) : M unit :=
  self <- get st_self ;;
  let name := pretty (skill_id self) +:+ ":" +:+ intent_file in
  emit (Msg "padatious:register_intent"
            {[ "file_name" := VStr (join (vocab_dir self) intent_file);
               "name" := VStr name ]}) ;;
  add_event name handler need_self.

(** [_register_decorated].  The module-level lists [_intent_list] and
    [_intent_file_list] are passed in, and the result is what the two
    names are bound to when the method returns.  When a registration
    raises, the assignments at the end are not reached and the lists
    are as they were. *)
Fixpoint register_decorated_intents (l : list (intent_parser * handler))
    : M unit :=
  match l with
  | [] => ret tt
  | (intent_parser, handler) :: rest =>
      register_intent intent_parser (Some handler) true ;;
      register_decorated_intents rest
  end.

Fixpoint register_decorated_files (l : list (string * handler)) : M unit :=
  match l with
  | [] => ret tt
  | (intent_file, handler) :: rest =>
      register_intent_file intent_file (Some handler) true ;;
      register_decorated_files rest
  end.

Definition _register_decorated (_intent_list : list (intent_parser * handler))
    (_intent_file_list : list (string * handler))
    : M (list (intent_parser * handler) * list (string * handler)) :=
  register_decorated_intents _intent_list ;;
  register_decorated_files _intent_file_list ;;
  ret ([], []).

(** ** Functions of the module *)

(** Python's [s.strip()], [s.split(sep)] for a separator of one
    character, and [s.endswith(suffix)].  [strip] takes away the
    characters of [string.whitespace] (codes 9 to 13 and 32) at both
    ends; [split] gives one part more than there are separators. *)
Definition is_space (c : Ascii.ascii) : bool :=
  let n := Ascii.nat_of_ascii c in
  (n =? 32)%nat || ((9 <=? n)%nat && (n <=? 13)%nat).

Fixpoint lstrip (s : string) : string :=
  match s with
  | EmptyString => EmptyString
  | String c rest => if is_space c then lstrip rest else s
  end.

Fixpoint rstrip (s : string) : string :=
  match s with
  | EmptyString => EmptyString
  | String c rest =>
      match rstrip rest with
      | EmptyString => if is_space c then EmptyString else String c EmptyString
      | rest' => String c rest'
      end
  end.

Definition strip (s : string) : string := lstrip (rstrip s).

Fixpoint str_split (sep : Ascii.ascii) (s : string) : list string :=
  match s with
  | EmptyString => [EmptyString]
  | String c rest =>
      if Ascii.eqb c sep then EmptyString :: str_split sep rest
      else match str_split sep rest with
           | part :: parts => String c part :: parts
           | [] => [String c EmptyString]
           end
  end.

Fixpoint str_endswith (suffix s : string) : bool :=
  String.eqb s suffix ||
  match s with
  | EmptyString => false
  | String _ rest => str_endswith suffix rest
  end.

(** The character [|] (code 124). *)
Definition bar : Ascii.ascii := Eval cbv in Ascii.ascii_of_nat 124.

(** [load_vocab_from_file]; [voc_file] is what [readlines()] gives for
    the file at [path], and the messages go out on the bus of the
    state. *)
Fixpoint register_aliases (aliases : list string) (entity vocab_type : string)
    : M unit :=
  match aliases with
  | [] => ret tt
  | alias :: rest =>
      emit (Msg "register_vocab"
                {[ "start" := VStr alias; "end" := VStr vocab_type;
                   "alias_of" := VStr entity ]}) ;;
      register_aliases rest entity vocab_type
  end.

Fixpoint load_vocab_lines (lines : list string) (vocab_type : string)
    : M unit :=
  match lines with
  | [] => ret tt
  | line :: rest =>
      match str_split bar (strip line) with
      | [] => raise (Exn OtherError "list index out of range")
      | entity :: aliases =>
          emit (Msg "register_vocab"
                    {[ "start" := VStr entity; "end" := VStr vocab_type ]}) ;;
          register_aliases aliases entity vocab_type ;;
          load_vocab_lines rest vocab_type
      end
  end.

Definition load_vocab_from_file (path vocab_type : string)
    (voc_file : list string) : M unit :=
  if str_endswith ".voc" path then load_vocab_lines voc_file vocab_type
  else ret tt.

(** [open_intent_envelope]: [Intent(...)] of the four entries of the
    payload, each [None] when the payload has no such key. *)
Definition open_intent_envelope (message : Message) : opened_intent :=
  let intent_dict := msg_data message in
  Opened (intent_dict !! "name") (intent_dict !! "requires")
         (intent_dict !! "at_least_one") (intent_dict !! "optional").

(** ** Notions the properties are stated with *)

(** What the wrapper leaves in the trace after the handler's part went
    well, and after it raised [e]. *)
Definition wrapper_success_events (self : string) (h : handler) : list event :=
  [EvSettingsStore self; EvEmit (handler_complete (get_handler_name h))].

Definition wrapper_failure_events (self : string) (h : handler) (e : exn)
    : list event :=
  [EvEnclosureRegister self;
   EvEmit (speak_message (error_text self) false);
   EvLog LError (error_text self);
   EvEmit (handler_complete_exception (get_handler_name h) e);
   EvEmit (handler_complete (get_handler_name h))].

Definition raises_TypeError (o : outcome) : Prop :=
  exists e, o = Raise e /\ exn_cls e = TypeError.

Definition namespaced (self : Skill) (i : Intent) : Intent :=
  rename_intent (pretty (skill_id self) +:+ ":" +:+ intent_name i) i.



(** How many entries of the registry hold [h], and how often [h] stands
    in a list. *)
Definition holders (reg : gmap Z handler) (h : handler) : nat :=
  length (filter (fun x => x.2 = h) (map_to_list reg)).

Definition occurrences (h : handler) (l : list handler) : nat :=
  length (filter (fun x => x = h) l).

(** The bus holds no subscription twice, and a closure that the skill
    lists in [events] under a name is subscribed under no other name. *)
Definition bindings_wf (s : state) : Prop :=
  NoDup (st_listeners s) /\
  forall evs e f e',
    events (st_self s) = Some evs ->
    (e, f) ∈ evs -> (e', f) ∈ st_listeners s -> e' = e.

(** What [add_event] keeps: closures are subscribed once, and the
    closures subscribed or listed were made before the next one. *)
Definition bindings_inv (s : state) : Prop :=
  NoDup ((fun x => w_id x.2) <$> st_listeners s) /\
  (forall e f, (e, f) ∈ st_listeners s -> (w_id f < st_next_wrapper s)%nat) /\
  (forall evs e f,
     events (st_self s) = Some evs -> (e, f) ∈ evs ->
     (w_id f < st_next_wrapper s)%nat /\
     forall e', (e', f) ∈ st_listeners s -> e' = e).

(** The character [:] (code 58). *)
Definition colon : Ascii.ascii := Eval cbv in Ascii.ascii_of_nat 58.

(** Whether the character stands in the string. *)
Fixpoint str_has (c : Ascii.ascii) (s : string) : bool :=
  match s with
  | EmptyString => false
  | String c' s' => if Ascii.ascii_dec c' c then true else str_has c s'
  end.

(** The line [enable_intent] logs for an entry that is not the one
    asked for. *)
Definition could_not_enable (intent_name : string) : event :=
  EvLog LError ("Could not enable " +:+ intent_name
                +:+ ", it hasn't been registered.").

(** Every recorded intent carries the name it was published under: the
    skill's id, a colon and the name it is recorded under. *)
Definition registry_named (self : Skill) : Prop :=
  Forall (fun ni => intent_name ni.2 = _unique_name self ni.1)
         (registered_intents self).

(** The subscriptions left when each pair of [evs] has been removed
    once, in order. *)
Definition unsubscribed (evs l : list (string * wrapper))
    : list (string * wrapper) :=
  foldl (fun l x => remove_first x l) l evs.

(** The arguments the wrapper passes to a handler that declares two. *)
Definition two_arguments (self : string) (need_self : bool)
    (message : Message) : list arg :=
  if need_self then [ArgSelf self; ArgMessage message]
  else [ArgMessage message].

(** The name of what is handed to [register_intent]. *)
Definition parser_name (p : intent_parser) : string :=
  match p with
  | IsIntentBuilder i | IsIntent i => intent_name i
  | IsOther => ""
  end.

(** The event names and handlers of the decorated intents and intent
    files of a skill, and the subscriptions made for them when the next
    closure is number [next]: each with the owner injected. *)
Definition decorated_names (self : Skill)
    (_intent_list : list (intent_parser * handler))
    (_intent_file_list : list (string * handler)) : list (string * handler) :=
  ((fun ph => (_unique_name self (parser_name ph.1), ph.2)) <$> _intent_list)
  ++ ((fun fh => (_unique_name self fh.1, fh.2)) <$> _intent_file_list).

Fixpoint decorated_bindings (next : nat) (owner : string)
    (l : list (string * handler)) : list (string * wrapper) :=
  match l with
  | [] => []
  | (n, h) :: rest =>
      (n, Wrapper next owner h true) :: decorated_bindings (S next) owner rest
  end.

(** How often a character stands in a string. *)
Fixpoint str_count (c : Ascii.ascii) (s : string) : nat :=
  match s with
  | EmptyString => 0
  | String c' rest => (if Ascii.eqb c' c then 1 else 0) + str_count c rest
  end.

(** The messages [load_vocab_from_file] publishes for one line. *)
Definition vocab_messages (vocab_type line : string) : list Message :=
  match str_split bar (strip line) with
  | [] => []
  | entity :: aliases =>
      Msg "register_vocab"
          {[ "start" := VStr entity; "end" := VStr vocab_type ]}
      :: ((fun alias =>
             Msg "register_vocab"
                 {[ "start" := VStr alias; "end" := VStr vocab_type;
                    "alias_of" := VStr entity ]}) <$> aliases)
  end.

(** An intent as [open_intent_envelope] gives it back. *)
Definition as_opened (i : Intent) : opened_intent :=
  Opened (Some (VStr (intent_name i))) (Some (VPairs (intent_requires i)))
         (Some (VGroups (intent_at_least_one i)))
         (Some (VPairs (intent_optional i))).

(** Equal traces that differ in how their appends are nested. *)
Ltac trace_eq := simpl; repeat (rewrite <- app_assoc; simpl); done.

(** ** Properties *)

(** *** The fallback registry *)

Lemma probe_agree fuel (reg1 reg2 : gmap Z handler) (priority : Z) :
  (forall q, priority ≤ q -> is_Some (reg1 !! q) <-> is_Some (reg2 !! q)) ->
  probe fuel reg1 priority = probe fuel reg2 priority.
Proof.
  revert priority. induction fuel as [|fuel IH]; intros priority Hagree; [done|].
  simpl. destruct (decide (is_Some (reg1 !! priority))) as [H1|H1];
    destruct (decide (is_Some (reg2 !! priority))) as [H2|H2].
  - apply IH. intros q Hq. apply Hagree. lia.
  - exfalso. apply H2, Hagree; [lia | done].
  - exfalso. apply H1, Hagree; [lia | done].
  - done.
Qed.

Lemma probe_ge fuel (reg : gmap Z handler) (priority : Z) :
  priority ≤ probe fuel reg priority.
Proof.
  revert priority. induction fuel as [|fuel IH]; intros priority; simpl; [lia|].
  destruct (decide (is_Some (reg !! priority))); [|lia].
  specialize (IH (priority + 1)). lia.
Qed.

Lemma probe_occupied_below fuel (reg : gmap Z handler) (priority q : Z) :
  priority ≤ q < probe fuel reg priority -> is_Some (reg !! q).
Proof.
  revert priority. induction fuel as [|fuel IH]; intros priority; simpl; [lia|].
  destruct (decide (is_Some (reg !! priority))) as [Hocc|]; [|lia].
  intros Hq. destruct (decide (q = priority)) as [->|Hne]; [done|].
  apply (IH (priority + 1)). lia.
Qed.

(** The loop stops at a free slot: more increments than the registry
    has entries are never needed. *)
Lemma probe_finds_free_slot fuel (reg : gmap Z handler) (priority : Z) :
  (size reg < fuel)%nat -> reg !! probe fuel reg priority = None.
Proof.
  revert reg priority.
  induction fuel as [|fuel IH]; intros reg priority Hsize; [lia|].
  simpl. destruct (decide (is_Some (reg !! priority))) as [Hocc|Hfree].
  - rewrite (probe_agree fuel reg (delete priority reg)).
    + pose proof (probe_ge fuel (delete priority reg) (priority + 1)) as Hge.
      rewrite <- (lookup_delete_ne reg priority) by lia.
      apply IH.
      pose proof (map_size_delete_Some priority reg Hocc).
      pose proof (map_size_ne_0_lookup_2 reg priority Hocc). lia.
    + intros q Hq. rewrite lookup_delete_ne by lia. done.
  - by apply eq_None_not_Some.
Qed.

Lemma assigned_priority_free (reg : gmap Z handler) (priority : Z) :
  reg !! assigned_priority reg priority = None.
Proof. apply probe_finds_free_slot. lia. Qed.

Lemma assigned_priority_free_eq (reg : gmap Z handler) (priority : Z) :
  reg !! priority = None -> assigned_priority reg priority = priority.
Proof.
  intros Hfree. unfold assigned_priority. simpl.
  destruct (decide (is_Some (reg !! priority))) as [[h Hh]|]; congruence.
Qed.

Lemma assigned_priority_bumped (reg : gmap Z handler) (priority : Z) :
  is_Some (reg !! priority) -> priority < assigned_priority reg priority.
Proof.
  intros Hocc. unfold assigned_priority. simpl.
  destruct (decide (is_Some (reg !! priority))); [|done].
  pose proof (probe_ge (size reg) reg (priority + 1)). lia.
Qed.

Lemma items_elem_of (reg : gmap Z handler) (priority : Z) (h : handler) :
  (priority, h) ∈ items reg <-> reg !! priority = Some h.
Proof. rewrite (items_perm reg). apply elem_of_map_to_list. Qed.

Lemma items_NoDup_keys (reg : gmap Z handler) : NoDup ((items reg).*1).
Proof. rewrite (items_perm reg). apply NoDup_fst_map_to_list. Qed.

(** C3. Registering a fallback probes [priority], [priority + 1], ...
    up to the first integer free in the registry and stores the handler
    there.  Every entry already present stays where it is, so the first
    registrant at a priority keeps it and a later one is moved to a
    strictly higher value; requesting a free priority twice gives that
    priority and, when it is free too, the next one (10 and 11); and no
    two entries of the registry have the same priority. *)
Theorem register_fallback_probes_to_free_slot
    (s : state) (handler : handler) (priority : Z) :
  let reg := fallback_handlers s in
  let slot := assigned_priority reg priority in
  let s' := (_register_fallback handler priority s).2 in
  (_register_fallback handler priority s).1 = Ok tt /\
  priority ≤ slot /\
  (forall q, priority ≤ q < slot -> is_Some (reg !! q)) /\
  reg !! slot = None /\
  fallback_handlers s' = <[slot := handler]> reg /\
  fallback_handlers s' !! slot = Some handler /\
  (forall q h, reg !! q = Some h -> fallback_handlers s' !! q = Some h) /\
  (is_Some (reg !! priority) -> priority < slot) /\
  (reg !! priority = None -> slot = priority) /\
  (reg !! priority = None -> reg !! (priority + 1) = None ->
   assigned_priority (fallback_handlers s') priority = priority + 1) /\
  size (fallback_handlers s') = S (size reg) /\
  NoDup ((items (fallback_handlers s')).*1).
Proof.
  intros reg slot s'.
  assert (Hfree : reg !! slot = None) by apply assigned_priority_free.
  assert (Hs' : fallback_handlers s' = <[slot := handler]> reg) by done.
  split_and!; try done.
  - apply probe_ge.
  - intros q. apply probe_occupied_below.
  - rewrite Hs'. apply lookup_insert_eq.
  - intros q h Hq. rewrite Hs'. rewrite lookup_insert_ne; [done|].
    intros ->. congruence.
  - apply assigned_priority_bumped.
  - apply assigned_priority_free_eq.
  - intros Hp Hnext. rewrite Hs'.
    assert (slot = priority) as -> by by apply assigned_priority_free_eq.
    pose proof (assigned_priority_bumped (<[priority := handler]> reg) priority) as Hlt.
    rewrite lookup_insert_eq in Hlt. specialize (Hlt (ltac:(eauto))).
    destruct (decide (assigned_priority (<[priority:=handler]> reg) priority
                      = priority + 1)) as [|Hne]; [done|].
    exfalso.
    destruct (probe_occupied_below (S (size (<[priority:=handler]> reg)))
                (<[priority:=handler]> reg) priority (priority + 1)) as [h' Hh'].
    { fold (assigned_priority (<[priority:=handler]> reg) priority). lia. }
    rewrite lookup_insert_ne in Hh' by lia. congruence.
  - rewrite Hs'. by apply map_size_insert_None.
  - apply items_NoDup_keys.
Qed.


Lemma find_fallback_Some (its : list (Z * handler)) (h : handler) (priority : Z) :
  find_fallback its h = Some priority ->
  exists pre post, its = pre ++ (priority, h) :: post /\
                   Forall (fun x => x.2 <> h) pre.
Proof.
  induction its as [|[q h'] its IH]; simpl; [done|].
  destruct (decide (h' = h)) as [->|Hne].
  - intros [= ->]. by exists [], its.
  - intros Hfind. destruct (IH Hfind) as (pre & post & -> & Hpre).
    exists ((q, h') :: pre), post. split; [done|]. by constructor.
Qed.

Lemma find_fallback_None (its : list (Z * handler)) (h : handler) :
  find_fallback its h = None <-> Forall (fun x => x.2 <> h) its.
Proof.
  induction its as [|[q h'] its IH]; simpl.
  - split; [constructor | done].
  - destruct (decide (h' = h)) as [->|Hne].
    + split; [done|]. by inversion 1.
    + rewrite IH. split; [by constructor | by inversion 1].
Qed.

(** C10. One call of [remove_fallback] deletes the first entry, in the
    order in which the registry is iterated, whose handler equals the
    given one, and only that entry; when no entry holds the handler the
    registry stays as it is and the call only logs a warning.  Nothing
    else of the state changes and nothing is raised. *)
Theorem remove_fallback_deletes_first_match
    (s : state) (handler_to_del : handler) :
  let reg := fallback_handlers s in
  let s' := (remove_fallback handler_to_del s).2 in
  (remove_fallback handler_to_del s).1 = Ok tt /\
  st_listeners s' = st_listeners s /\ st_self s' = st_self s /\
  st_world s' = st_world s /\
  ((exists pre priority post,
      items reg = pre ++ (priority, handler_to_del) :: post /\
      Forall (fun x => x.2 <> handler_to_del) pre /\
      reg !! priority = Some handler_to_del /\
      fallback_handlers s' = delete priority reg /\
      fallback_handlers s' !! priority = None /\
      (forall q, q <> priority -> fallback_handlers s' !! q = reg !! q) /\
      S (size (fallback_handlers s')) = size reg /\
      st_trace s' = st_trace s)
   \/
   ((forall priority, reg !! priority <> Some handler_to_del) /\
    fallback_handlers s' = reg /\
    st_trace s' = st_trace s ++ [EvLog LWarning "Could not remove fallback!"])).
Proof.
  intros reg s'. subst s'. unfold remove_fallback, bind, get. simpl.
  fold reg.
  destruct (find_fallback (items reg) handler_to_del) as [priority|] eqn:Hfind;
    simpl.
  - split_and!; try done. left.
    destruct (find_fallback_Some _ _ _ Hfind) as (pre & post & Hits & Hpre).
    assert (Hin : reg !! priority = Some handler_to_del).
    { apply items_elem_of. rewrite Hits. apply elem_of_app. right. left. }
    exists pre, priority, post. split_and!; try done.
    + apply lookup_delete_eq.
    + intros q Hq. by apply lookup_delete_ne.
    + rewrite map_size_delete_Some by eauto.
      pose proof (map_size_ne_0_lookup_2 reg priority (ltac:(eauto))). lia.
  - split_and!; try done. right. split_and!; try done.
    intros priority Hin. apply items_elem_of in Hin.
    apply find_fallback_None in Hfind.
    rewrite Forall_forall in Hfind. by apply (Hfind _ Hin).
Qed.


(** *** The fallback dispatcher *)

Lemma after_events_nil (s : state) : after_events s [] (st_world s) = s.
Proof. destruct s. unfold after_events, set_world, set_trace. simpl. by rewrite app_nil_r. Qed.

Lemma after_events_app (s : state) evs1 evs2 w1 w2 :
  after_events (after_events s evs1 w1) evs2 w2 = after_events s (evs1 ++ evs2) w2.
Proof. unfold after_events, set_world, set_trace. simpl. by rewrite app_assoc. Qed.

Lemma record_run (ev : event) (s : state) :
  record ev s = (Ok tt, after_events s [ev] (st_world s)).
Proof. destruct s. done. Qed.

Lemma passes_dec (o : outcome) :
  passes o \/ o = Return true \/
  exists e, o = Raise e /\ str_text (exn_message e) = None.
Proof.
  destruct o as [[]|e]; simpl.
  - right. by left.
  - by left.
  - destruct (str_text (exn_message e)) eqn:Hstr.
    + left. by eexists.
    + right. right. by exists e.
Qed.

Lemma try_fallbacks_continue (ph : Z * handler) rest message (s : state) o w :
  call ph.2 [ArgMessage message] (st_world s) = (o, w) ->
  passes o ->
  try_fallbacks (ph :: rest) message s =
  try_fallbacks rest message (after_events s (fallback_events message ph o) w).
Proof.
  intros Hcall Ho. destruct ph as [priority h]. simpl in *.
  unfold bind at 1. unfold try_except, bind at 1, invoke. rewrite Hcall.
  destruct o as [[]|e]; simpl in Ho; [done| |].
  - simpl. done.
  - destruct Ho as [rendered Hstr]. simpl.
    unfold str_exn, fallback_events. rewrite Hstr.
    unfold bind, log, record, modify, ret. simpl.
    unfold after_events. simpl.
    f_equal. unfold set_world, set_trace. simpl. by rewrite <- app_assoc.
Qed.

Lemma try_fallbacks_success (ph : Z * handler) rest message (s : state) w :
  call ph.2 [ArgMessage message] (st_world s) = (Return true, w) ->
  try_fallbacks (ph :: rest) message s =
  (Ok true, after_events s (fallback_events message ph (Return true)
                            ++ [EvEmit (fallback_complete ph.2)]) w).
Proof.
  intros Hcall. destruct ph as [priority h]. simpl in *.
  unfold bind at 1. unfold try_except, bind at 1, invoke. rewrite Hcall. simpl.
  unfold bind, emit, record, modify, ret. simpl.
  unfold after_events, fallback_events. simpl.
  f_equal. unfold set_world, set_trace. simpl. by rewrite <- app_assoc.
Qed.

(** The candidate raises an exception that [str] cannot render: the
    [except] block raises and the loop is left. *)
Lemma try_fallbacks_abort (ph : Z * handler) rest message (s : state) e w :
  call ph.2 [ArgMessage message] (st_world s) = (Raise e, w) ->
  str_text (exn_message e) = None ->
  try_fallbacks (ph :: rest) message s =
  (Raised (Exn UnicodeEncodeError ""),
   after_events s (fallback_events message ph (Raise e)) w).
Proof.
  intros Hcall Hstr. destruct ph as [priority h]. simpl in *.
  unfold bind at 1. unfold try_except, bind at 1, invoke. rewrite Hcall. simpl.
  unfold str_exn, fallback_events. rewrite Hstr.
  unfold bind, raise. simpl. done.
Qed.

(** A run of candidates after each of which the loop goes on. *)
Lemma try_fallbacks_app before rest message (s : state) :
  Forall passes (call_in_order before message (st_world s)).1 ->
  try_fallbacks (before ++ rest) message s =
  try_fallbacks rest message
    (after_events s
       (concat (zip_with (fallback_events message) before
                         (call_in_order before message (st_world s)).1))
       (call_in_order before message (st_world s)).2).
Proof.
  revert s. induction before as [|ph before IH]; intros s Hall.
  - simpl. by rewrite after_events_nil.
  - rewrite <- app_comm_cons. simpl call_in_order in *.
    destruct (call ph.2 [ArgMessage message] (st_world s)) as [o w] eqn:Hcall.
    destruct (call_in_order before message w) as [os w'] eqn:Hrest.
    simpl in Hall. apply Forall_cons in Hall as [Ho Hos].
    rewrite (try_fallbacks_continue ph _ message s o w Hcall Ho).
    rewrite IH; simpl st_world; rewrite Hrest; [|done].
    simpl. by rewrite after_events_app.
Qed.

(** Either the loop goes on after every candidate, or there is a first
    one after which it does not: it returned a true value, or it raised
    an exception that [str] cannot render. *)
Lemma first_decisive (hs : list (Z * handler)) message (w : world) :
  Forall passes (call_in_order hs message w).1 \/
  exists before ph after,
    hs = before ++ ph :: after /\
    Forall passes (call_in_order before message w).1 /\
    ((call ph.2 [ArgMessage message] (call_in_order before message w).2).1
     = Return true \/
     exists e,
       (call ph.2 [ArgMessage message] (call_in_order before message w).2).1
       = Raise e /\ str_text (exn_message e) = None).
Proof.
  revert w. induction hs as [|ph hs IH]; intros w; simpl.
  - left. constructor.
  - destruct (call ph.2 [ArgMessage message] w) as [o w'] eqn:Hcall.
    destruct (passes_dec o) as [Ho|Hdecisive].
    + destruct (IH w') as [Hall|(before & ph' & after & -> & Hall & Hdec)].
      * left. destruct (call_in_order hs message w'). simpl in *. by constructor.
      * right. exists (ph :: before), ph', after. simpl. rewrite Hcall.
        destruct (call_in_order before message w'). simpl in *.
        split_and!; try done. by constructor.
    + right. exists [], ph, hs. simpl. rewrite Hcall. split_and!; try done.
Qed.

Lemma call_in_order_app before rest message (w : world) :
  call_in_order (before ++ rest) message w =
  ((call_in_order before message w).1
   ++ (call_in_order rest message (call_in_order before message w).2).1,
   (call_in_order rest message (call_in_order before message w).2).2).
Proof.
  revert w. induction before as [|ph before IH]; intros w; simpl.
  - by destruct (call_in_order rest message w).
  - destruct (call ph.2 [ArgMessage message] w) as [o w'].
    rewrite IH. destruct (call_in_order before message w'). simpl.
    by destruct (call_in_order rest message w0).
Qed.

Lemma call_in_order_length hs message (w : world) :
  length (call_in_order hs message w).1 = length hs.
Proof.
  revert w. induction hs as [|ph hs IH]; intros w; simpl; [done|].
  destruct (call ph.2 [ArgMessage message] w) as [o w'].
  specialize (IH w'). destruct (call_in_order hs message w'). simpl in *.
  by rewrite IH.
Qed.

Lemma calls_fallback_events message (hs : list (Z * handler)) (outs : list outcome) :
  calls (concat (zip_with (fallback_events message) hs outs)) =
  zip_with (fun ph o => (ph.2, [ArgMessage message], o)) hs outs.
Proof.
  revert outs. induction hs as [|ph hs IH]; intros [|o outs]; simpl; try done.
  unfold calls in *. destruct o as [b|e]; simpl; [by rewrite IH|].
  destruct (str_text (exn_message e)); simpl; by rewrite IH.
Qed.

Lemma emitted_fallback_events message (hs : list (Z * handler)) (outs : list outcome) :
  emitted (concat (zip_with (fallback_events message) hs outs)) = [].
Proof.
  revert outs. induction hs as [|ph hs IH]; intros [|o outs]; simpl; try done.
  unfold emitted in *. destruct o as [b|e]; simpl; [by rewrite IH|].
  destruct (str_text (exn_message e)); simpl; by rewrite IH.
Qed.

Lemma sorted_items_perm (reg : gmap Z handler) :
  sorted_items reg ≡ₚ map_to_list reg.
Proof. unfold sorted_items. by rewrite merge_sort_Permutation. Qed.

Lemma strictly_sorted (l : list (Z * handler)) :
  StronglySorted by_priority l -> NoDup (l.*1) ->
  StronglySorted (fun a b => a.1 < b.1) l.
Proof.
  induction 1 as [|a l Hl IH Ha]; simpl; intros Hnd; [constructor|].
  apply NoDup_cons in Hnd as [Hnotin Hnd].
  constructor; [by apply IH|].
  rewrite Forall_forall in Ha |- *. intros b Hb.
  specialize (Ha b Hb). unfold by_priority in Ha.
  assert (a.1 <> b.1); [|lia].
  intros Heq. apply Hnotin. rewrite Heq. by apply list_elem_of_fmap_2.
Qed.

Lemma sorted_items_ascending (reg : gmap Z handler) :
  StronglySorted (fun a b => a.1 < b.1) (sorted_items reg).
Proof.
  apply strictly_sorted.
  - apply StronglySorted_merge_sort; apply _.
  - rewrite sorted_items_perm. apply NoDup_fst_map_to_list.
Qed.

Lemma intent_failure_handler_unfold (s : state) (message : Message) :
  intent_failure_handler message s =
  match try_fallbacks (sorted_items (fallback_handlers s)) message
          (after_events s [EvEmit fallback_start] (st_world s)) with
  | (Ok true, s') => (Ok tt, s')
  | (Ok false, s') =>
      (Ok tt, after_events s' fallback_exhausted_events (st_world s'))
  | (Raised e, s') => (Raised e, s')
  end.
Proof.
  unfold intent_failure_handler.
  unfold bind at 1. unfold emit. rewrite record_run.
  unfold bind at 1. unfold get at 1. simpl fallback_handlers.
  unfold bind at 1. fold fallback_start.
  destruct (try_fallbacks _ _ _) as [[[]|e] s']; try done.
  unfold bind at 1. rewrite record_run.
  unfold bind at 1. unfold log. rewrite !record_run.
  by rewrite !after_events_app.
Qed.

Lemma intent_failure_handler_exhausted (s : state) (message : Message) :
  let hs := sorted_items (fallback_handlers s) in
  Forall passes (call_in_order hs message (st_world s)).1 ->
  intent_failure_handler message s =
  (Ok tt,
   after_events s
     (EvEmit fallback_start
      :: concat (zip_with (fallback_events message) hs
                          (call_in_order hs message (st_world s)).1)
      ++ fallback_exhausted_events)
     (call_in_order hs message (st_world s)).2).
Proof.
  intros hs Hall. rewrite intent_failure_handler_unfold. fold hs.
  rewrite <- (app_nil_r hs) at 1.
  rewrite try_fallbacks_app by done.
  simpl try_fallbacks. unfold ret at 1.
  rewrite !after_events_app. done.
Qed.

Lemma intent_failure_handler_success (s : state) (message : Message)
    before ph after :
  sorted_items (fallback_handlers s) = before ++ ph :: after ->
  Forall passes (call_in_order before message (st_world s)).1 ->
  (call ph.2 [ArgMessage message]
        (call_in_order before message (st_world s)).2).1 = Return true ->
  intent_failure_handler message s =
  (Ok tt,
   after_events s
     (EvEmit fallback_start
      :: concat (zip_with (fallback_events message) (before ++ [ph])
                          (call_in_order (before ++ [ph]) message (st_world s)).1)
      ++ [EvEmit (fallback_complete ph.2)])
     (call_in_order (before ++ [ph]) message (st_world s)).2).
Proof.
  intros Hsplit Hall Hsucc. rewrite intent_failure_handler_unfold.
  rewrite Hsplit.
  rewrite try_fallbacks_app by done.
  destruct (call ph.2 [ArgMessage message]
              (call_in_order before message (st_world s)).2) as [o w] eqn:Hcall.
  simpl in Hsucc. subst o.
  erewrite try_fallbacks_success by (simpl; exact Hcall).
  rewrite !after_events_app.
  rewrite call_in_order_app. simpl. rewrite Hcall. simpl.
  rewrite zip_with_app by (by rewrite call_in_order_length).
  rewrite concat_app. simpl. by rewrite <- !app_assoc.
Qed.

Lemma intent_failure_handler_aborted (s : state) (message : Message)
    before ph after e :
  sorted_items (fallback_handlers s) = before ++ ph :: after ->
  Forall passes (call_in_order before message (st_world s)).1 ->
  (call ph.2 [ArgMessage message]
        (call_in_order before message (st_world s)).2).1 = Raise e ->
  str_text (exn_message e) = None ->
  intent_failure_handler message s =
  (Raised (Exn UnicodeEncodeError ""),
   after_events s
     (EvEmit fallback_start
      :: concat (zip_with (fallback_events message) (before ++ [ph])
                          (call_in_order (before ++ [ph]) message (st_world s)).1)
      ++ [])
     (call_in_order (before ++ [ph]) message (st_world s)).2).
Proof.
  intros Hsplit Hall Hraise Hstr. rewrite intent_failure_handler_unfold.
  rewrite Hsplit.
  rewrite try_fallbacks_app by done.
  destruct (call ph.2 [ArgMessage message]
              (call_in_order before message (st_world s)).2) as [o w] eqn:Hcall.
  simpl in Hraise. subst o.
  erewrite try_fallbacks_abort; [|simpl; exact Hcall|exact Hstr].
  rewrite !after_events_app.
  rewrite call_in_order_app. simpl. rewrite Hcall. simpl.
  rewrite zip_with_app by (by rewrite call_in_order_length).
  rewrite concat_app. simpl. unfold fallback_events. rewrite Hstr.
  by rewrite !app_nil_r.
Qed.

(** The dispatcher, for every registry, message and behaviour of the
    handlers.  It emits [handler.start] for "fallback" and then calls
    the registered handlers with the message in strictly ascending order
    of priority, until the first one after which the loop does not go
    on; the handlers after that one are not called.  When that one
    returned a true value, the dispatcher emits [handler.complete] with
    the name of that handler and returns.  When the loop went on after
    every handler, all have been called and the dispatcher emits
    [complete_intent_failure], logs the warning, emits
    [handler.complete] with the exhaustion text in [exception] and
    returns.  When that one raised an exception that [str] cannot
    render, nothing more is emitted or logged and the dispatcher raises
    [UnicodeEncodeError]. *)
Theorem fallback_dispatch_in_priority_order (s : state) (message : Message) :
  let reg := fallback_handlers s in
  let r := intent_failure_handler message s in
  sorted_items reg ≡ₚ map_to_list reg /\
  StronglySorted (fun a b => a.1 < b.1) (sorted_items reg) /\
  exists invoked skipped ending,
    let outs := (call_in_order invoked message (st_world s)).1 in
    let body := concat (zip_with (fallback_events message) invoked outs) in
    sorted_items reg = invoked ++ skipped /\
    r.2 = after_events s
            (EvEmit (Msg "mycroft.skill.handler.start"
                         {[ "handler" := VStr "fallback" ]})
             :: body ++ ending)
            (call_in_order invoked message (st_world s)).2 /\
    calls body = zip_with (fun ph o => (ph.2, [ArgMessage message], o))
                          invoked outs /\
    length outs = length invoked /\
    emitted body = [] /\
    ((exists before ph,
        invoked = before ++ [ph] /\
        Forall passes (call_in_order before message (st_world s)).1 /\
        (call ph.2 [ArgMessage message]
              (call_in_order before message (st_world s)).2).1 = Return true /\
        r.1 = Ok tt /\
        ending
        = [EvEmit (Msg "mycroft.skill.handler.complete"
                       {[ "handler" := VStr "fallback";
                          "fallback_handler"
                          := VStr (get_handler_name ph.2) ]})])
     \/
     (skipped = [] /\
      Forall passes outs /\
      r.1 = Ok tt /\
      ending
      = [EvEmit (Msg "complete_intent_failure" ∅);
         EvLog LWarning "No fallback could handle intent.";
         EvEmit (Msg "mycroft.skill.handler.complete"
                     {[ "handler" := VStr "fallback";
                        "exception"
                        := VStr "No fallback could handle intent." ]})])
     \/
     (exists before ph e,
        invoked = before ++ [ph] /\
        Forall passes (call_in_order before message (st_world s)).1 /\
        (call ph.2 [ArgMessage message]
              (call_in_order before message (st_world s)).2).1 = Raise e /\
        str_text (exn_message e) = None /\
        r.1 = Raised (Exn UnicodeEncodeError "") /\
        ending = [])).
Proof.
  intros reg r.
  split; [apply sorted_items_perm|]. split; [apply sorted_items_ascending|].
  subst r.
  destruct (first_decisive (sorted_items reg) message (st_world s))
    as [Hall|(before & ph & after & Hsplit & Hall & [Hsucc|(e & Hraise & Hstr)])].
  - rewrite intent_failure_handler_exhausted by done.
    exists (sorted_items reg), [], fallback_exhausted_events.
    split_and!.
    + by rewrite app_nil_r.
    + done.
    + apply calls_fallback_events.
    + apply call_in_order_length.
    + apply emitted_fallback_events.
    + right. left. done.
  - rewrite (intent_failure_handler_success s message before ph after) by done.
    exists (before ++ [ph]), after, [EvEmit (fallback_complete ph.2)].
    split_and!.
    + by rewrite <- app_assoc.
    + done.
    + apply calls_fallback_events.
    + apply call_in_order_length.
    + apply emitted_fallback_events.
    + left. by exists before, ph.
  - rewrite (intent_failure_handler_aborted s message before ph after e) by done.
    exists (before ++ [ph]), after, [].
    split_and!.
    + by rewrite <- app_assoc.
    + done.
    + apply calls_fallback_events.
    + apply call_in_order_length.
    + apply emitted_fallback_events.
    + right. right. by exists before, ph, e.
Qed.

Lemma try_fallbacks_extends (hs : list (Z * handler)) message (s : state) :
  exists evs,
    st_trace (try_fallbacks hs message s).2 = st_trace s ++ evs.
Proof.
  revert s. induction hs as [|ph hs IH]; intros s.
  - exists []. simpl. by rewrite app_nil_r.
  - destruct (call ph.2 [ArgMessage message] (st_world s)) as [o w] eqn:Hcall.
    destruct (passes_dec o) as [Ho|[->|(e & -> & Hstr)]].
    + rewrite (try_fallbacks_continue ph hs message s o w Hcall Ho).
      destruct (IH (after_events s (fallback_events message ph o) w))
        as (evs & Htr).
      exists (fallback_events message ph o ++ evs).
      rewrite Htr. simpl. by rewrite <- app_assoc.
    + rewrite (try_fallbacks_success ph hs message s w Hcall).
      eexists. simpl. done.
    + rewrite (try_fallbacks_abort ph hs message s e w Hcall Hstr).
      eexists. simpl. done.
Qed.

Lemma try_fallbacks_first_call (ph : Z * handler) rest message (s : state) :
  exists evs,
    st_trace (try_fallbacks (ph :: rest) message s).2 =
    st_trace s
    ++ EvCall ph.2 [ArgMessage message]
              (call ph.2 [ArgMessage message] (st_world s)).1 :: evs.
Proof.
  destruct (call ph.2 [ArgMessage message] (st_world s)) as [o w] eqn:Hcall.
  destruct (passes_dec o) as [Ho|[->|(e & -> & Hstr)]].
  - rewrite (try_fallbacks_continue ph rest message s o w Hcall Ho).
    destruct (try_fallbacks_extends rest message
                (after_events s (fallback_events message ph o) w))
      as (evs & Htr).
    eexists. rewrite Htr. simpl.
    rewrite <- app_assoc. simpl. done.
  - rewrite (try_fallbacks_success ph rest message s w Hcall).
    eexists. simpl. done.
  - rewrite (try_fallbacks_abort ph rest message s e w Hcall Hstr).
    eexists. simpl. done.
Qed.

(** A fallback handler that raises an exception that [str] renders does
    not end the dispatch: when the loop has gone on up to it, its call
    is followed by the log line with the rendered text and then by the
    call of the next handler in order of priority, or, when it was the
    last one, by the events of exhaustion, and then the dispatcher
    returns. *)
Theorem fallback_exception_is_contained (s : state) (message : Message) :
  let reg := fallback_handlers s in
  let r := intent_failure_handler message s in
  forall before ph after e rendered,
    sorted_items reg = before ++ ph :: after ->
    let outs := (call_in_order before message (st_world s)).1 in
    let w := (call_in_order before message (st_world s)).2 in
    Forall passes outs ->
    (call ph.2 [ArgMessage message] w).1 = Raise e ->
    str_text (exn_message e) = Some rendered ->
    exists rest_events,
      st_trace r.2 =
      st_trace s
      ++ EvEmit (Msg "mycroft.skill.handler.start"
                     {[ "handler" := VStr "fallback" ]})
         :: concat (zip_with (fallback_events message) before outs)
      ++ [EvCall ph.2 [ArgMessage message] (Raise e);
          EvLog LInfo ("Exception in fallback: " +:+ rendered)]
      ++ rest_events /\
      match after with
      | [] =>
          r.1 = Ok tt /\
          rest_events
          = [EvEmit (Msg "complete_intent_failure" ∅);
             EvLog LWarning "No fallback could handle intent.";
             EvEmit (Msg "mycroft.skill.handler.complete"
                         {[ "handler" := VStr "fallback";
                            "exception"
                            := VStr "No fallback could handle intent." ]})]
      | next :: _ =>
          exists tl,
            rest_events =
            EvCall next.2 [ArgMessage message]
                   (call next.2 [ArgMessage message]
                         (call ph.2 [ArgMessage message] w).2).1 :: tl
      end.
Proof.
  intros reg r before ph after e rendered Hsplit outs w Hall Hraise Hstr.
  subst r. rewrite intent_failure_handler_unfold. fold reg. rewrite Hsplit.
  replace (before ++ ph :: after) with ((before ++ [ph]) ++ after)
    by (by rewrite <- app_assoc).
  destruct (call ph.2 [ArgMessage message] w) as [o w'] eqn:Hcall.
  simpl in Hraise. subst o.
  assert (Hrun : call_in_order (before ++ [ph]) message (st_world s)
                 = (outs ++ [Raise e], w')).
  { rewrite call_in_order_app. simpl. fold w. rewrite Hcall. done. }
  rewrite try_fallbacks_app; simpl st_world; rewrite Hrun; simpl fst; simpl snd.
  2:{ apply Forall_app. split; [done|]. repeat constructor. simpl. by eexists. }
  rewrite after_events_app.
  rewrite zip_with_app by (subst outs; by rewrite call_in_order_length).
  rewrite concat_app. simpl zip_with. simpl concat.
  unfold fallback_events at 2. rewrite Hstr.
  destruct after as [|next after].
  - simpl try_fallbacks. unfold ret.
    exists fallback_exhausted_events. split; [|done].
    trace_eq.
  - match goal with
    | |- context [try_fallbacks (next :: after) message ?s2] =>
        destruct (try_fallbacks_first_call next after message s2)
          as (evs & Htr);
        destruct (try_fallbacks (next :: after) message s2) as [[[]|e'] s3]
    end; simpl in Htr.
    + exists (EvCall next.2 [ArgMessage message]
                (call next.2 [ArgMessage message] w').1 :: evs).
      split; [|by eexists]. simpl. rewrite Htr. trace_eq.
    + exists (EvCall next.2 [ArgMessage message]
                (call next.2 [ArgMessage message] w').1
              :: evs ++ fallback_exhausted_events).
      split; [|by eexists]. simpl. rewrite Htr. trace_eq.
    + exists (EvCall next.2 [ArgMessage message]
                (call next.2 [ArgMessage message] w').1 :: evs).
      split; [|by eexists]. simpl. rewrite Htr. trace_eq.
Qed.


(** *** The event binder *)

Lemma invoke_run (h : handler) (args : list arg) (s : state) :
  invoke h args s =
  (match (call h args (st_world s)).1 with
   | Return b => Ok b
   | Raise e => Raised e
   end,
   after_events s [EvCall h args (call h args (st_world s)).1]
                (call h args (st_world s)).2).
Proof.
  unfold invoke. destruct (call h args (st_world s)) as [[b|e] w]; done.
Qed.

Lemma wrapper_body_run (self : string) (h : handler) (need_self : bool)
    (message : Message) (s : state) :
  wrapper_body self h need_self message s =
  match call_handler self h need_self message
          (after_events s [EvEmit (handler_start (get_handler_name h))]
                        (st_world s)) with
  | (Ok _, s') =>
      (Ok tt, after_events s' (wrapper_success_events self h) (st_world s'))
  | (Raised e, s') =>
      (Ok tt, after_events s' (wrapper_failure_events self h e) (st_world s'))
  end.
Proof.
  unfold wrapper_body. unfold bind at 1. unfold try_except.
  unfold bind at 1. unfold emit at 1. rewrite record_run.
  unfold bind at 1.
  destruct (call_handler _ _ _ _ _) as [[[]|e] s'].
  - unfold settings_store, emit. rewrite !record_run.
    by rewrite after_events_app.
  - simpl. unfold speak, log, emit, bind. rewrite !record_run.
    destruct s'. unfold after_events, wrapper_failure_events, set_world, set_trace.
    simpl. by rewrite <- !app_assoc.
Qed.

(** The handler's part of the wrapper only calls the handler. *)
Lemma call_handler_extends (self : string) (h : handler) (need_self : bool)
    (message : Message) (s : state) :
  exists cs,
    (call_handler self h need_self message s).2
    = after_events s cs (st_world (call_handler self h need_self message s).2) /\
    emitted cs = [].
Proof.
  unfold call_handler.
  assert (Hone : forall args,
    exists cs, ((invoke h args ;; ret tt) s).2
               = after_events s cs (st_world ((invoke h args ;; ret tt) s).2)
               /\ emitted cs = []).
  { intros args. unfold bind. rewrite invoke_run.
    destruct (call h args (st_world s)) as [[b|e] w]; simpl; by eexists. }
  assert (Hraise : exists cs,
    (raise (A:=unit) (Exn TypeError "") s).2
    = after_events s cs (st_world (raise (A:=unit) (Exn TypeError "") s).2)
    /\ emitted cs = []).
  { exists []. by rewrite after_events_nil. }
  destruct need_self; repeat case_match; try apply Hone; try apply Hraise.
  unfold try_except, bind. rewrite invoke_run.
  destruct (call h [ArgSelf self; ArgMessage message] (st_world s))
    as [[b|e] w]; simpl; [by eexists|].
  destruct (except_TypeError e); simpl; [|by eexists].
  rewrite invoke_run. simpl.
  destruct (call h [ArgSelf self] w) as [[b|e'] w']; simpl;
    rewrite after_events_app; by eexists.
Qed.

(** When the handler's part goes well the wrapper emits one
    [handler.start] and then one [handler.complete], without
    [exception]. *)
Lemma wrapper_emits_on_success (self : string) (h : handler)
    (need_self : bool) (message : Message) (s : state) :
  (call_handler self h need_self message
     (after_events s [EvEmit (handler_start (get_handler_name h))]
                   (st_world s))).1 = Ok tt ->
  exists delta,
    (wrapper_body self h need_self message s).1 = Ok tt /\
    st_trace (wrapper_body self h need_self message s).2 = st_trace s ++ delta /\
    emitted delta = [handler_start (get_handler_name h);
                     handler_complete (get_handler_name h)].
Proof.
  intros Hok. rewrite wrapper_body_run.
  destruct (call_handler_extends self h need_self message
              (after_events s [EvEmit (handler_start (get_handler_name h))]
                            (st_world s))) as (cs & Hs' & Hcs).
  destruct (call_handler _ _ _ _ _) as [res s']. simpl in *. subst res.
  eexists. split; [done|]. rewrite Hs'. simpl.
  rewrite <- !app_assoc. split; [done|].
  simpl. unfold emitted in *. rewrite omap_app, Hcs. done.
Qed.

(** When the handler's part raises, the wrapper emits [handler.start],
    the spoken error, [handler.complete] with [exception] and then
    [handler.complete] once more, without it. *)
Lemma wrapper_emits_on_failure (self : string) (h : handler)
    (need_self : bool) (message : Message) (s : state) (e : exn) :
  (call_handler self h need_self message
     (after_events s [EvEmit (handler_start (get_handler_name h))]
                   (st_world s))).1 = Raised e ->
  exists delta,
    (wrapper_body self h need_self message s).1 = Ok tt /\
    st_trace (wrapper_body self h need_self message s).2 = st_trace s ++ delta /\
    emitted delta = [handler_start (get_handler_name h);
                     speak_message (error_text self) false;
                     handler_complete_exception (get_handler_name h) e;
                     handler_complete (get_handler_name h)].
Proof.
  intros Hraised. rewrite wrapper_body_run.
  destruct (call_handler_extends self h need_self message
              (after_events s [EvEmit (handler_start (get_handler_name h))]
                            (st_world s))) as (cs & Hs' & Hcs).
  destruct (call_handler _ _ _ _ _) as [res s']. simpl in *. subst res.
  eexists. split; [done|]. rewrite Hs'. simpl.
  rewrite <- !app_assoc. split; [done|].
  simpl. unfold emitted in *. rewrite omap_app, Hcs. done.
Qed.


(** C5, as the code has it.  Without owner injection a handler whose
    declared argument list has one entry (a bound method that declares
    only [self]) is called once, with no argument, whatever the message
    holds.  A handler whose declared argument list is empty is not
    called: the wrapper raises [TypeError] itself and reports the
    failure. *)
Theorem no_owner_single_argument_called_bare
    (self : string) (h : handler) (message : Message) (s : state) :
  exists delta,
    st_trace (wrapper_body self h false message s).2 = st_trace s ++ delta /\
    (h_argspec h = 1%nat ->
     calls delta = [(h, [], (call h [] (st_world s)).1)]) /\
    (h_argspec h = 0%nat ->
     calls delta = [] /\
     emitted delta = [handler_start (get_handler_name h);
                      speak_message (error_text self) false;
                      handler_complete_exception (get_handler_name h)
                                                 (Exn TypeError "");
                      handler_complete (get_handler_name h)]).
Proof.
  rewrite wrapper_body_run. unfold call_handler.
  destruct (h_argspec h) as [|[|n]] eqn:Hargs; simpl.
  - unfold raise. simpl. eexists. split; [trace_eq|].
    split; [done|]. intros _. done.
  - unfold bind. rewrite invoke_run. simpl.
    destruct (call h [] (st_world s)) as [[b|e] w]; simpl;
      (eexists; split; [trace_eq|]; split; [done|]; done).
  - destruct n as [|n]; simpl.
    + unfold bind. rewrite invoke_run. simpl.
      destruct (call h [ArgMessage message] (st_world s)) as [[b|e] w]; simpl;
        (eexists; split; [trace_eq|]; split; done).
    + unfold raise. simpl. eexists. split; [trace_eq|]. split; done.
Qed.

(** C6. With owner injection, a handler whose declared argument list is
    empty is first called with the owner and the message; it is called
    again, with the owner alone, exactly when that first call raised a
    [TypeError]. *)
Theorem owner_injected_zero_arguments_two_then_one
    (self : string) (h : handler) (message : Message) (s : state) :
  h_argspec h = 0%nat ->
  let first := call h [ArgSelf self; ArgMessage message] (st_world s) in
  exists delta second,
    st_trace (wrapper_body self h true message s).2 = st_trace s ++ delta /\
    calls delta = (h, [ArgSelf self; ArgMessage message], first.1) :: second /\
    (raises_TypeError first.1 ->
     second = [(h, [ArgSelf self], (call h [ArgSelf self] first.2).1)]) /\
    (~ raises_TypeError first.1 -> second = []).
Proof.
  intros Hargs first. rewrite wrapper_body_run. unfold call_handler.
  rewrite Hargs. simpl. unfold try_except, bind. rewrite invoke_run.
  simpl st_world. fold first.
  destruct first as [[b|e] w] eqn:Hfirst; simpl.
  - eexists _, []. split; [trace_eq|]. split; [done|].
    split; [|done]. intros (e & [=] & _).
  - unfold except_TypeError. case_bool_decide as Hcls; simpl.
    + rewrite invoke_run. simpl.
      destruct (call h [ArgSelf self] w) as [[b|e'] w'] eqn:Hsecond; simpl;
        (eexists _, [_]; split; [trace_eq|]; split; [done|];
         split; [done|]; intros Hno; exfalso; apply Hno; by exists e).
    + eexists _, []. split; [trace_eq|]. split; [done|].
      split; [|done]. intros (e' & [= <-] & Hty). done.
Qed.


(** *** The intent registry *)

Lemma register_intent_unbound_run (i : Intent) (s : state) :
  register_intent (IsIntent i) None false s =
  (Ok tt,
   set_next_wrapper (S (st_next_wrapper s))
     (set_self
        (set_registered_intents
           (registered_intents (st_self s)
            ++ [(intent_name i, namespaced (st_self s) i)])
           (st_self s))
        (set_trace
           (st_trace s
            ++ [EvEmit (Msg "register_intent"
                            (intent_dict (namespaced (st_self s) i)))])
           s))).
Proof. done. Qed.

Lemma remove_first_app_not_in {A} `{EqDecision A} (x : A) (l1 l2 : list A) :
  x ∉ l1 -> remove_first x (l1 ++ x :: l2) = l1 ++ l2.
Proof.
  induction l1 as [|y l1 IH]; simpl; intros Hnotin.
  - by rewrite decide_True.
  - apply not_elem_of_cons in Hnotin as [Hne Hnotin].
    rewrite decide_False by done. by rewrite IH.
Qed.

Lemma enable_intent_loop_skip (n' : string) (i' : Intent) l (n : string)
    (s : state) :
  n' <> n ->
  enable_intent_loop ((n', i') :: l) n s =
  enable_intent_loop l n
    (after_events s
       [EvLog LError ("Could not enable " +:+ n
                      +:+ ", it hasn't been registered.")]
       (st_world s)).
Proof.
  intros Hne. simpl. apply String.eqb_neq in Hne. rewrite Hne.
  unfold bind at 1. unfold log. by rewrite record_run.
Qed.

Lemma enable_intent_loop_hit (i' : Intent) l (n : string) (s : state) :
  enable_intent_loop ((n, i') :: l) n s =
  (Ok tt,
   set_next_wrapper (S (st_next_wrapper s))
     (set_self
        (set_registered_intents
           (remove_first (n, i') (registered_intents (st_self s))
            ++ [(n, namespaced (st_self s) (rename_intent n i'))])
           (st_self s))
        (set_trace
           (st_trace s
            ++ [EvEmit (Msg "register_intent"
                            (intent_dict (namespaced (st_self s)
                                                     (rename_intent n i'))));
                EvLog LDebug ("Enabling intent " +:+ n)])
           s))).
Proof.
  simpl. rewrite String.eqb_refl.
  unfold bind at 1. unfold modify_self at 1. unfold modify at 1.
  unfold bind at 1. rewrite register_intent_unbound_run.
  unfold log. rewrite record_run.
  unfold after_events, set_world, set_next_wrapper, set_self, set_trace. simpl.
  by rewrite <- app_assoc.
Qed.

Lemma enable_intent_loop_spec (l : list (string * Intent)) (n : string)
    (s : state) :
  exists delta,
    (enable_intent_loop l n s).1 = Ok tt /\
    st_listeners (enable_intent_loop l n s).2 = st_listeners s /\
    events (st_self (enable_intent_loop l n s).2) = events (st_self s) /\
    st_trace (enable_intent_loop l n s).2 = st_trace s ++ delta /\
    (n ∉ l.*1 ->
     emitted delta = [] /\
     registered_intents (st_self (enable_intent_loop l n s).2)
     = registered_intents (st_self s)) /\
    (forall before i after,
       l = before ++ (n, i) :: after -> n ∉ before.*1 ->
       emitted delta
       = [Msg "register_intent"
              (intent_dict (namespaced (st_self s) (rename_intent n i)))] /\
       registered_intents (st_self (enable_intent_loop l n s).2)
       = remove_first (n, i) (registered_intents (st_self s))
         ++ [(n, namespaced (st_self s) (rename_intent n i))]).
Proof.
  revert s. induction l as [|[n' i'] l IH]; intros s.
  - exists []. simpl. rewrite app_nil_r. split_and!; try done.
    intros [|] ? ? [=].
  - destruct (decide (n' = n)) as [->|Hne].
    + rewrite enable_intent_loop_hit.
      eexists. split_and!; try done.
      * intros Hnotin. exfalso. apply Hnotin. simpl. left.
      * intros [|[n1 i1] before] i after [= Hi Hl] Hbefore.
        -- subst. simpl. done.
        -- exfalso. simplify_eq. apply Hbefore. simpl. left.
    + rewrite (enable_intent_loop_skip n' i' l n s Hne).
      destruct (IH (after_events s
                      [EvLog LError ("Could not enable " +:+ n
                                     +:+ ", it hasn't been registered.")]
                      (st_world s)))
        as (delta & Hok & Hlis & Hev & Htr & Hnone & Hsome).
      eexists. split_and!; try done.
      * rewrite Htr. trace_eq.
      * intros Hnotin. simpl in Hnotin.
        apply not_elem_of_cons in Hnotin as [_ Hnotin].
        destruct (Hnone Hnotin) as [Hem Hreg].
        split; [|done]. simpl. done.
      * intros [|[n1 i1] before] i after [= Hn Hi Hl] Hbefore.
        -- by subst.
        -- subst. simpl in Hbefore.
           apply not_elem_of_cons in Hbefore as [_ Hbefore].
           destruct (Hsome before i after eq_refl Hbefore) as [Hem Hreg].
           split; [|done]. simpl. done.
Qed.

(** C9. [add_event] with no handler subscribes nothing, leaves the
    skill's [events] as they are and raises nothing.  So [enable_intent],
    which registers the intent again with no handler, publishes the
    [register_intent] message of the first intent recorded under the
    name and makes no event binding. *)
Theorem add_event_without_handler_binds_nothing
    (name : string) (need_self : bool) (intent_name : string) (s : state) :
  let r := add_event name None need_self s in
  let r' := enable_intent intent_name s in
  (r.1 = Ok tt /\
   st_listeners r.2 = st_listeners s /\
   st_self r.2 = st_self s /\
   st_trace r.2 = st_trace s /\
   fallback_handlers r.2 = fallback_handlers s /\
   st_world r.2 = st_world s) /\
  (r'.1 = Ok tt /\
   st_listeners r'.2 = st_listeners s /\
   events (st_self r'.2) = events (st_self s) /\
   forall before i after,
     registered_intents (st_self s) = before ++ (intent_name, i) :: after ->
     intent_name ∉ before.*1 ->
     emitted (st_trace r'.2)
     = emitted (st_trace s)
       ++ [Msg "register_intent"
               (intent_dict (namespaced (st_self s)
                                        (rename_intent intent_name i)))] /\
     registered_intents (st_self r'.2)
     = before ++ after
       ++ [(intent_name,
            namespaced (st_self s) (rename_intent intent_name i))]).
Proof.
  intros r r'. split; [done|].
  subst r'. unfold enable_intent. unfold bind, get. simpl.
  destruct (enable_intent_loop_spec (registered_intents (st_self s))
              intent_name s)
    as (delta & Hok & Hlis & Hev & Htr & _ & Hsome).
  split_and!; try done.
  intros before i after Hreg Hbefore.
  destruct (Hsome before i after Hreg Hbefore) as [Hem Hregs].
  split.
  - rewrite Htr. unfold emitted in *. by rewrite omap_app, Hem.
  - rewrite Hregs, Hreg. rewrite remove_first_app_not_in; [by rewrite <- app_assoc|].
    intros Hin. apply Hbefore.
    by apply (list_elem_of_fmap_2 fst) in Hin.
Qed.


(** *** Entity files *)

Lemma str_app_nil_l (s : string) : "" +:+ s = s.
Proof. reflexivity. Qed.

Lemma str_app_cons (c : Ascii.ascii) (s t : string) :
  String c s +:+ t = String c (s +:+ t).
Proof. reflexivity. Qed.









(** *** Shutdown *)

Lemma bindings_inv_wf (s : state) : bindings_inv s -> bindings_wf s.
Proof.
  intros (Hnd & _ & Hev). split.
  - by apply NoDup_fmap_1 in Hnd.
  - intros evs e f e' Hevs Hin Hsub.
    by apply (Hev evs e f Hevs Hin).
Qed.

Lemma add_event_keeps_bindings_inv (ev_name : string) (h : handler)
    (need_self : bool) (s : state) :
  bindings_inv s ->
  (add_event ev_name (Some h) need_self s).1 = Ok tt ->
  bindings_inv (add_event ev_name (Some h) need_self s).2.
Proof.
  intros (Hnd & Hlt & Hev).
  unfold add_event, bind, def_wrapper, get, emitter_on, modify. simpl.
  destruct (events (st_self s)) as [evs|] eqn:Hevs; simpl; [|done].
  intros _. split_and!; simpl.
  - rewrite fmap_app. simpl. apply NoDup_app. split_and!.
    + done.
    + intros i Hi Hnew. apply list_elem_of_fmap in Hi as ([e f] & -> & Hin).
      apply Hlt in Hin. simpl in Hnew. apply list_elem_of_singleton in Hnew. lia.
    + apply NoDup_singleton.
  - intros e f Hin. apply elem_of_app in Hin as [Hin|Hin].
    + apply Hlt in Hin. lia.
    + apply list_elem_of_singleton in Hin. injection Hin as -> ->. simpl. lia.
  - intros evs' e f [= <-] Hin. apply elem_of_app in Hin as [Hin|Hin].
    + destruct (Hev evs e f eq_refl Hin) as [Hid Hname]. split; [lia|].
      intros e' Hsub. apply elem_of_app in Hsub as [Hsub|Hsub].
      * by apply Hname.
      * apply list_elem_of_singleton in Hsub. injection Hsub as -> ->.
        simpl in Hid. lia.
    + apply list_elem_of_singleton in Hin. injection Hin as -> ->. simpl.
      split; [lia|]. intros e' Hsub.
      apply elem_of_app in Hsub as [Hsub|Hsub].
      * apply Hlt in Hsub. simpl in Hsub. lia.
      * apply list_elem_of_singleton in Hsub. by injection Hsub as ->.
Qed.

Lemma remove_first_subseteq {A} `{EqDecision A} (x y : A) (l : list A) :
  y ∈ remove_first x l -> y ∈ l.
Proof.
  induction l as [|z l IH]; simpl; [done|].
  destruct (decide (z = x)); [by right|].
  intros [->|Hin]%elem_of_cons; [left | right; auto].
Qed.

Lemma remove_first_NoDup {A} `{EqDecision A} (x : A) (l : list A) :
  NoDup l -> NoDup (remove_first x l) /\ x ∉ remove_first x l.
Proof.
  induction 1 as [|z l Hz Hl IH]; simpl.
  - split; [constructor | by apply not_elem_of_nil].
  - destruct (decide (z = x)) as [->|Hne]; [done|].
    destruct IH as [IH1 IH2]. split.
    + constructor; [|done]. intros Hin. by apply remove_first_subseteq in Hin.
    + by apply not_elem_of_cons.
Qed.

Lemma remove_events_run (evs : list (string * wrapper)) (s : state) :
  (remove_events evs s).1 = Ok tt /\
  st_trace (remove_events evs s).2 = st_trace s /\
  st_self (remove_events evs s).2 = st_self s /\
  fallback_handlers (remove_events evs s).2 = fallback_handlers s /\
  st_world (remove_events evs s).2 = st_world s /\
  (forall x, x ∈ st_listeners (remove_events evs s).2 -> x ∈ st_listeners s) /\
  (NoDup (st_listeners s) ->
   forall x, x ∈ evs -> x ∉ st_listeners (remove_events evs s).2).
Proof.
  revert s. induction evs as [|[e f] evs IH]; intros s.
  - simpl. split_and!; try done. intros _ x Hx. by apply not_elem_of_nil in Hx.
  - simpl. unfold bind, emitter_remove, modify. simpl.
    destruct (IH (set_listeners (remove_first (e, f) (st_listeners s)) s))
      as (Hok & Htr & Hself & Hreg & Hw & Hsub & Hgone).
    split_and!; try done.
    + intros x Hx. apply Hsub in Hx. simpl in Hx.
      by apply remove_first_subseteq in Hx.
    + intros Hnd x Hx.
      destruct (remove_first_NoDup (e, f) (st_listeners s) Hnd) as [Hnd' Hnot].
      apply elem_of_cons in Hx as [->|Hx].
      * intros Hin. apply Hsub in Hin. simpl in Hin. done.
      * by apply Hgone.
Qed.


Lemma MycroftSkill_shutdown_run (s : state) (evs : list (string * wrapper)) :
  events (st_self s) = Some evs ->
  exists s',
    MycroftSkill_shutdown s = (Ok tt, s') /\
    st_self s' = set_events None (st_self s) /\
    fallback_handlers s' = fallback_handlers s /\
    (forall x, x ∈ st_listeners s' -> x ∈ st_listeners s) /\
    (NoDup (st_listeners s) -> forall x, x ∈ evs -> x ∉ st_listeners s').
Proof.
  intros Hevs. unfold MycroftSkill_shutdown.
  unfold bind at 1. unfold get at 1.
  unfold bind at 1. unfold settings_store. rewrite record_run.
  unfold bind at 1. rewrite record_run. rewrite after_events_app.
  unfold bind at 1. rewrite Hevs.
  match goal with
  | |- context [remove_events evs ?s1] =>
      destruct (remove_events_run evs s1)
        as (Hok & Htr & Hself & Hreg & Hw & Hsub & Hgone);
      destruct (remove_events evs s1) as [res s2]
  end.
  simpl in Hok, Htr, Hself, Hreg, Hw, Hsub, Hgone. subst res.
  unfold bind at 1. unfold modify_self at 1. unfold modify at 1.
  unfold bind at 1. unfold emit. rewrite record_run.
  unfold try_except, bind. rewrite invoke_run. simpl.
  destruct (call (stop (st_self s)) [] (st_world s2)) as [[b|e] w]; simpl;
    (eexists; split; [done|]; simpl;
     split_and!; [by rewrite Hself | done | done | done]).
Qed.

Lemma MycroftSkill_shutdown_twice (s : state) :
  events (st_self s) = None ->
  (MycroftSkill_shutdown s).1
  = Raised (Exn TypeError "'NoneType' object is not iterable").
Proof.
  intros Hevs. unfold MycroftSkill_shutdown.
  unfold bind, get, settings_store, record, modify. simpl. by rewrite Hevs.
Qed.

Lemma holders_delete (reg : gmap Z handler) (p : Z) (h0 h : handler) :
  reg !! p = Some h0 ->
  holders reg h
  = (holders (delete p reg) h + if decide (h0 = h) then 1 else 0)%nat.
Proof.
  intros Hp. unfold holders.
  rewrite <- (map_to_list_delete reg p h0 Hp).
  rewrite filter_cons. simpl.
  destruct (decide (h0 = h)); simpl; lia.
Qed.

Lemma holders_pos (reg : gmap Z handler) (p : Z) (h : handler) :
  reg !! p = Some h -> (0 < holders reg h)%nat.
Proof.
  intros Hp. rewrite (holders_delete reg p h h Hp).
  rewrite decide_True by done. lia.
Qed.

Lemma remove_fallback_run (h : handler) (s : state) :
  (remove_fallback h s).1 = Ok tt /\
  st_listeners (remove_fallback h s).2 = st_listeners s /\
  st_self (remove_fallback h s).2 = st_self s /\
  forall h',
    holders (fallback_handlers (remove_fallback h s).2) h'
    = (holders (fallback_handlers s) h' - if decide (h = h') then 1 else 0)%nat.
Proof.
  unfold remove_fallback, bind, get. simpl.
  destruct (find_fallback (items (fallback_handlers s)) h) as [p|] eqn:Hfind;
    simpl.
  - split_and!; try done. intros h'.
    destruct (find_fallback_Some _ _ _ Hfind) as (pre & post & Hits & _).
    assert (Hp : fallback_handlers s !! p = Some h).
    { apply items_elem_of. rewrite Hits. apply elem_of_app. right. left. }
    rewrite (holders_delete (fallback_handlers s) p h h' Hp). lia.
  - split_and!; try done. intros h'.
    destruct (decide (h = h')) as [<-|]; [|lia].
    apply find_fallback_None in Hfind. rewrite Forall_forall in Hfind.
    assert (holders (fallback_handlers s) h = 0%nat) as ->; [|done].
    unfold holders.
    destruct (filter _ (map_to_list (fallback_handlers s)))
      as [|[q hq] l] eqn:Hf; [done|].
    assert (Hin : (q, hq) ∈ filter (fun x : Z * handler => x.2 = h)
                              (map_to_list (fallback_handlers s)))
      by (rewrite Hf; left).
    apply list_elem_of_filter in Hin as [Hh Hin]. simpl in Hh.
    apply elem_of_map_to_list in Hin. apply items_elem_of in Hin.
    exfalso. by apply (Hfind _ Hin).
Qed.

Lemma remove_instance_loop_run (stack : list handler) (s : state) :
  exists s',
    remove_instance_loop stack s = (Ok tt, s') /\
    st_listeners s' = st_listeners s /\
    st_self s' = match stack with
                 | [] => st_self s
                 | _ => set_instance_fallback_handlers [] (st_self s)
                 end /\
    forall h,
      holders (fallback_handlers s') h
      = (holders (fallback_handlers s) h - occurrences h stack)%nat.
Proof.
  revert s. induction stack as [|h0 stack IH]; intros s.
  - exists s. simpl. split_and!; try done.
    intros h. unfold occurrences. simpl. lia.
  - simpl. unfold bind at 1. unfold modify_self at 1. unfold modify at 1.
    unfold bind at 1.
    match goal with
    | |- context [remove_fallback h0 ?s1] =>
        destruct (remove_fallback_run h0 s1) as (Hok & Hlis & Hself & Hhold);
        destruct (remove_fallback h0 s1) as [res s2]
    end.
    simpl in Hok, Hlis, Hself, Hhold. subst res.
    destruct (IH s2) as (s' & Hrun & Hlis' & Hself' & Hhold').
    exists s'. split_and!.
    + done.
    + by rewrite Hlis', Hlis.
    + rewrite Hself', Hself. by destruct stack.
    + intros h. rewrite Hhold', Hhold. unfold occurrences.
      rewrite filter_cons. destruct (decide (h0 = h)); simpl; lia.
Qed.


(** A skill that registered no fallback shuts down as a plain
    [MycroftSkill] does. *)
Lemma FallbackSkill_shutdown_plain (s : state) :
  instance_fallback_handlers (st_self s) = [] ->
  FallbackSkill_shutdown s = MycroftSkill_shutdown s.
Proof.
  intros Hnone.
  unfold FallbackSkill_shutdown, remove_instance_handlers, bind, get.
  by rewrite Hnone.
Qed.

Lemma delivered_to_elem (s : state) (e : string) (f : wrapper) :
  f ∈ delivered_to s e <-> (e, f) ∈ st_listeners s.
Proof.
  unfold delivered_to. rewrite list_elem_of_omap. split.
  - intros ([e' f'] & Hin & Hsome).
    destruct (decide (e' = e)) as [->|]; [|done]. by injection Hsome as ->.
  - intros Hin. exists (e, f). split; [done|]. by rewrite decide_True.
Qed.

Lemma occurrences_rev (h : handler) (l : list handler) :
  occurrences h (rev l) = occurrences h l.
Proof.
  unfold occurrences. apply Permutation_length.
  apply filter_Permutation. symmetry. apply Permutation_rev.
Qed.

(** What the shutdown of a fallback skill achieves.  When it
    completes, no closure that the skill listed in [events] is subscribed
    on the bus any more, under any name, so no delivered message reaches
    one; and, provided the registry held each of the skill's fallback
    handlers at most as often as the skill registered it, no entry of
    the registry holds one of them. *)
Theorem shutdown_unbinds_events_and_own_fallbacks
    (s : state) (evs : list (string * wrapper)) :
  events (st_self s) = Some evs ->
  bindings_wf s ->
  (forall h, h ∈ instance_fallback_handlers (st_self s) ->
     (holders (fallback_handlers s) h
      <= occurrences h (instance_fallback_handlers (st_self s)))%nat) ->
  let r := FallbackSkill_shutdown s in
  r.1 = Ok tt /\
  (forall e f e', (e, f) ∈ evs ->
     ((e', f) ∉ st_listeners r.2) /\ (f ∉ delivered_to r.2 e')) /\
  (forall h p, h ∈ instance_fallback_handlers (st_self s) ->
     fallback_handlers r.2 !! p <> Some h) /\
  events (st_self r.2) = None /\
  instance_fallback_handlers (st_self r.2) = [].
Proof.
  intros Hevs [Hnd Hown] Hcount r.
  destruct (remove_instance_loop_run
              (rev (instance_fallback_handlers (st_self s))) s)
    as (s1 & Hrun1 & Hlis1 & Hself1 & Hhold1).
  assert (Hevs1 : events (st_self s1) = Some evs).
  { rewrite Hself1. by destruct (rev _). }
  destruct (MycroftSkill_shutdown_run s1 evs Hevs1)
    as (s2 & Hrun2 & Hself2 & Hreg2 & Hsub2 & Hgone2).
  assert (Hrun : FallbackSkill_shutdown s = (Ok tt, s2)).
  { unfold FallbackSkill_shutdown, remove_instance_handlers, bind, get.
    cbv beta. by rewrite Hrun1. }
  subst r. rewrite Hrun. simpl. rewrite Hlis1 in Hsub2, Hgone2.
  assert (Hnot : forall e f e', (e, f) ∈ evs -> (e', f) ∉ st_listeners s2).
  { intros e f e' Hin Hsub.
    assert (e' = e) as -> by (eapply Hown; eauto).
    by apply (Hgone2 Hnd (e, f)). }
  split_and!.
  - done.
  - intros e f e' Hin. split; [by eapply Hnot|].
    rewrite delivered_to_elem. by eapply Hnot.
  - intros h p Hh Hp. rewrite Hreg2 in Hp.
    apply holders_pos in Hp. rewrite Hhold1, occurrences_rev in Hp.
    specialize (Hcount h Hh). lia.
  - by rewrite Hself2.
  - rewrite Hself2, Hself1. simpl.
    destruct (instance_fallback_handlers (st_self s)) as [|h l] eqn:Hl;
      simpl; [by rewrite Hl|].
    destruct (rev l ++ [h]) eqn:Hrev; [|done].
    by apply app_eq_nil in Hrev as [_ ?].
Qed.

(** ** Further properties *)

(** *** Names *)

Lemma pretty_N_go_no_colon (x : N) (s : string) :
  str_has colon s = false -> str_has colon (pretty_N_go x s) = false.
Proof.
  revert s. induction (N.lt_wf_0 x) as [x _ IH]; intros s Hs.
  assert (x = 0 \/ 0 < x)%N as [->|Hpos] by lia.
  - by rewrite pretty_N_go_0.
  - rewrite pretty_N_go_step by done. apply IH.
    + by apply N.div_lt.
    + simpl. rewrite Hs. unfold pretty_N_char. by repeat case_match.
Qed.

Lemma pretty_Z_no_colon (z : Z) : str_has colon (pretty z) = false.
Proof.
  assert (HN : forall n : N, str_has colon (pretty n) = false).
  { intros n. unfold pretty, pretty_N. case_decide; [done|].
    by apply pretty_N_go_no_colon. }
  destruct z as [|p|p]; [done | apply (HN (N.pos p)) |].
  change (pretty (Z.neg p)) with ("-" +:+ pretty (N.pos p)).
  rewrite str_app_cons, str_app_nil_l. simpl. apply HN.
Qed.

Lemma split_at_first_colon (a b n1 n2 : string) :
  str_has colon a = false -> str_has colon b = false ->
  a +:+ ":" +:+ n1 = b +:+ ":" +:+ n2 -> a = b /\ n1 = n2.
Proof.
  revert b. induction a as [|c a IH]; intros [|c' b] Ha Hb Heq.
  - rewrite !str_app_nil_l, !str_app_cons, !str_app_nil_l in Heq.
    by injection Heq.
  - rewrite str_app_nil_l, !str_app_cons, str_app_nil_l in Heq.
    injection Heq as <- _. by simpl in Hb.
  - rewrite str_app_nil_l, !str_app_cons, str_app_nil_l in Heq.
    injection Heq as -> _. by simpl in Ha.
  - rewrite !(str_app_cons _ _ (":" +:+ _)) in Heq. injection Heq as -> Heq.
    simpl in Ha, Hb. destruct (Ascii.ascii_dec c' colon); [done|].
    destruct (IH b Ha Hb Heq) as [-> ->]. done.
Qed.

(** X1. Namespaced names do not collide: two names made by
    [_unique_name] are equal only when both the skill ids and the local
    names are, whatever the local names hold. *)
Theorem unique_name_injective (self1 self2 : Skill) (n1 n2 : string) :
  _unique_name self1 n1 = _unique_name self2 n2 <->
  skill_id self1 = skill_id self2 /\ n1 = n2.
Proof.
  unfold _unique_name. split.
  - intros Heq.
    apply split_at_first_colon in Heq as [Hid ->];
      try apply pretty_Z_no_colon.
    split; [|done]. by apply (inj pretty).
  - by intros [-> ->].
Qed.

(** *** Registering intents *)

Lemma add_event_with_handler_run (ev_name : string) (h : handler)
    (need_self : bool) (s : state) :
  add_event ev_name (Some h) need_self s =
  let w := Wrapper (st_next_wrapper s) (name (st_self s)) h need_self in
  let s1 := set_listeners (st_listeners s ++ [(ev_name, w)])
              (set_next_wrapper (S (st_next_wrapper s)) s) in
  match events (st_self s) with
  | Some evs =>
      (Ok tt, set_self (set_events (Some (evs ++ [(ev_name, w)])) (st_self s)) s1)
  | None =>
      (Raised (Exn AttributeError "'NoneType' object has no attribute 'append'"),
       s1)
  end.
Proof.
  unfold add_event, bind, def_wrapper, get, emitter_on, modify, self_name.
  simpl. by destruct (events (st_self s)).
Qed.

(** X2. [register_intent] with a handler refuses what is neither an
    [Intent] nor an [IntentBuilder] before it does anything.  Otherwise
    it publishes the intent under the namespaced name and subscribes a
    new closure of the handler under that same name, so a message named
    as the published intent is delivered to it; the intent is recorded
    under its local name and the closure is listed in [events]. *)
Theorem register_intent_binds_published_name (p : intent_parser)
    (h : handler) (need_self : bool) (s : state) :
  let r := register_intent p (Some h) need_self s in
  match p with
  | IsOther =>
      r = (Raised (Exn ValueError "intent_parser is not an Intent"), s)
  | IsIntentBuilder i | IsIntent i =>
      let published := namespaced (st_self s) i in
      let w := Wrapper (st_next_wrapper s) (name (st_self s)) h need_self in
      intent_name published = _unique_name (st_self s) (intent_name i) /\
      emitted (st_trace r.2)
      = emitted (st_trace s) ++ [Msg "register_intent" (intent_dict published)] /\
      st_listeners r.2 = st_listeners s ++ [(intent_name published, w)] /\
      w ∈ delivered_to r.2 (intent_name published) /\
      registered_intents (st_self r.2)
      = registered_intents (st_self s) ++ [(intent_name i, published)] /\
      forall evs, events (st_self s) = Some evs ->
        r.1 = Ok tt /\
        events (st_self r.2) = Some (evs ++ [(intent_name published, w)])
  end.
Proof.
  intros r. subst r.
  assert (Hboth : forall i,
    let r := (_ <- emit (Msg "register_intent"
                             (intent_dict (namespaced (st_self s) i))) ;;
              _ <- modify_self (fun self =>
                     set_registered_intents
                       (registered_intents self
                        ++ [(intent_name i, namespaced (st_self s) i)]) self) ;;
              add_event (intent_name (namespaced (st_self s) i)) (Some h)
                        need_self) s in
    let published := namespaced (st_self s) i in
    let w := Wrapper (st_next_wrapper s) (name (st_self s)) h need_self in
    intent_name published = _unique_name (st_self s) (intent_name i) /\
    emitted (st_trace r.2)
    = emitted (st_trace s) ++ [Msg "register_intent" (intent_dict published)] /\
    st_listeners r.2 = st_listeners s ++ [(intent_name published, w)] /\
    w ∈ delivered_to r.2 (intent_name published) /\
    registered_intents (st_self r.2)
    = registered_intents (st_self s) ++ [(intent_name i, published)] /\
    forall evs, events (st_self s) = Some evs ->
      r.1 = Ok tt /\
      events (st_self r.2) = Some (evs ++ [(intent_name published, w)])).
  { intros i r. remember r as r' eqn:Hr. subst r.
    unfold bind at 1 in Hr. unfold emit in Hr. rewrite record_run in Hr.
    unfold bind at 1 in Hr. unfold modify_self at 1, modify at 1 in Hr.
    rewrite add_event_with_handler_run in Hr. cbv zeta in Hr. simpl in Hr.
    destruct (events (st_self s)) as [evs|] eqn:Hevs; subst r'; simpl.
    - split_and!; try done.
      + unfold emitted. by rewrite omap_app.
      + apply delivered_to_elem. simpl. apply elem_of_app. right. left.
      + intros evs' [= <-]. done.
    - split_and!; try done.
      + unfold emitted. by rewrite omap_app.
      + apply delivered_to_elem. simpl. apply elem_of_app. right. left. }
  destruct p as [i|i|]; [apply Hboth | apply Hboth | done].
Qed.

(** X3. [register_intent_file] checks nothing about the file name: for
    every name it publishes [padatious:register_intent] with the
    namespaced name and subscribes a new closure of the handler under
    that same name. *)
Theorem register_intent_file_binds_published_name (intent_file : string)
    (h : handler) (need_self : bool) (s : state) :
  let r := register_intent_file intent_file (Some h) need_self s in
  let published := _unique_name (st_self s) intent_file in
  let w := Wrapper (st_next_wrapper s) (name (st_self s)) h need_self in
  emitted (st_trace r.2)
  = emitted (st_trace s)
    ++ [Msg "padatious:register_intent"
            {[ "file_name" := VStr (join (vocab_dir (st_self s)) intent_file);
               "name" := VStr published ]}] /\
  st_listeners r.2 = st_listeners s ++ [(published, w)] /\
  w ∈ delivered_to r.2 published /\
  registered_intents (st_self r.2) = registered_intents (st_self s) /\
  forall evs, events (st_self s) = Some evs ->
    r.1 = Ok tt /\ events (st_self r.2) = Some (evs ++ [(published, w)]).
Proof.
  intros r published w. remember r as r' eqn:Hr. subst r published w.
  unfold register_intent_file in Hr.
  unfold bind at 1 in Hr. unfold get at 1 in Hr.
  unfold bind at 1 in Hr. unfold emit in Hr. rewrite record_run in Hr.
  rewrite add_event_with_handler_run in Hr. cbv zeta in Hr. simpl in Hr.
  destruct (events (st_self s)) as [evs|] eqn:Hevs; subst r'; simpl.
  - split_and!; try done.
    + unfold emitted. by rewrite omap_app.
    + apply delivered_to_elem. simpl. apply elem_of_app. right. left.
    + intros evs' [= <-]. done.
  - split_and!; try done.
    + unfold emitted. by rewrite omap_app.
    + apply delivered_to_elem. simpl. apply elem_of_app. right. left.
Qed.

(** *** Enabling, disabling and detaching intents *)

Lemma emitted_replicate_could_not_enable (k : nat) (n : string) :
  emitted (replicate k (could_not_enable n)) = [].
Proof. induction k as [|k IH]; [done|]. simpl. exact IH. Qed.

Lemma enable_intent_unfold (n : string) (s : state) :
  enable_intent n s = enable_intent_loop (registered_intents (st_self s)) n s.
Proof. done. Qed.

Lemma enable_intent_loop_skips (before rest : list (string * Intent))
    (n : string) (s : state) :
  n ∉ before.*1 ->
  enable_intent_loop (before ++ rest) n s =
  enable_intent_loop rest n
    (after_events s (replicate (length before) (could_not_enable n))
                  (st_world s)).
Proof.
  revert s. induction before as [|[n' i'] before IH]; intros s Hn.
  - simpl. by rewrite after_events_nil.
  - rewrite fmap_cons in Hn. apply not_elem_of_cons in Hn as [Hne Hn].
    rewrite <- app_comm_cons.
    rewrite enable_intent_loop_skip by (simpl in Hne; congruence).
    rewrite IH by done. rewrite after_events_app. done.
Qed.

(** X4. [enable_intent] walks the recorded intents in order and logs
    one error line for every entry it passes before the one asked for,
    also when it then finds it; with no entry of that name it logs one
    line per recorded intent and does nothing else, so on a skill with
    no recorded intent it does nothing at all. *)
Theorem enable_intent_logs_error_per_skipped_entry (n : string) (s : state)
    (before : list (string * Intent)) :
  n ∉ before.*1 ->
  (registered_intents (st_self s) = before ->
   enable_intent n s
   = (Ok tt,
      after_events s (replicate (length before) (could_not_enable n))
                   (st_world s))) /\
  (forall i after,
     registered_intents (st_self s) = before ++ (n, i) :: after ->
     (enable_intent n s).1 = Ok tt /\
     st_trace (enable_intent n s).2
     = st_trace s ++ replicate (length before) (could_not_enable n)
       ++ [EvEmit (Msg "register_intent"
                       (intent_dict (namespaced (st_self s)
                                                (rename_intent n i))));
           EvLog LDebug ("Enabling intent " +:+ n)]).
Proof.
  intros Hn. split.
  - intros Hreg. unfold enable_intent. unfold bind, get at 1.
    rewrite Hreg. rewrite <- (app_nil_r before) at 1.
    by rewrite enable_intent_loop_skips.
  - intros i after Hreg.
    assert (Hrun : enable_intent n s
                   = enable_intent_loop (before ++ (n, i) :: after) n s).
    { unfold enable_intent. unfold bind, get. by rewrite Hreg. }
    rewrite Hrun. rewrite enable_intent_loop_skips by done.
    rewrite enable_intent_loop_hit. simpl. split; [done|].
    by rewrite <- app_assoc.
Qed.

Lemma disable_intent_run (n : string) (s : state) :
  disable_intent n s =
  (Ok tt,
   after_events s
     [EvLog LDebug ("Disabling intent " +:+ n);
      EvEmit (detach_intent_message (_unique_name (st_self s) n))]
     (st_world s)).
Proof.
  unfold disable_intent. unfold bind at 1. unfold log. rewrite record_run.
  unfold bind at 1. unfold get at 1. unfold emit. rewrite record_run.
  by rewrite after_events_app.
Qed.

Lemma register_intent_bound_run (i : Intent) (h : handler)
    (need_self : bool) (s : state) :
  register_intent (IsIntent i) (Some h) need_self s =
  add_event (intent_name (namespaced (st_self s) i)) (Some h) need_self
    (set_self
       (set_registered_intents
          (registered_intents (st_self s)
           ++ [(intent_name i, namespaced (st_self s) i)])
          (st_self s))
       (after_events s
          [EvEmit (Msg "register_intent"
                       (intent_dict (namespaced (st_self s) i)))]
          (st_world s))).
Proof. destruct s. done. Qed.

(** X5. [disable_intent] only publishes [detach_intent]: the record of
    the intent and the subscription of its handler stay.  So for an
    intent registered under a name not recorded before, enabling it
    after disabling it publishes again the very message that
    [register_intent] had published, and leaves the records and the
    subscriptions as the registration left them. *)
Theorem disable_then_enable_republishes (i : Intent) (h : handler)
    (need_self : bool) (s : state) (evs : list (string * wrapper)) :
  events (st_self s) = Some evs ->
  intent_name i ∉ (registered_intents (st_self s)).*1 ->
  let s1 := (register_intent (IsIntent i) (Some h) need_self s).2 in
  let s2 := (disable_intent (intent_name i) s1).2 in
  let r := enable_intent (intent_name i) s2 in
  r.1 = Ok tt /\
  emitted (st_trace r.2)
  = emitted (st_trace s)
    ++ [Msg "register_intent" (intent_dict (namespaced (st_self s) i));
        detach_intent_message (_unique_name (st_self s) (intent_name i));
        Msg "register_intent" (intent_dict (namespaced (st_self s) i))] /\
  registered_intents (st_self r.2) = registered_intents (st_self s1) /\
  st_self s2 = st_self s1 /\
  st_listeners s2 = st_listeners s1 /\
  st_listeners r.2 = st_listeners s1 /\
  events (st_self r.2) = events (st_self s1).
Proof.
  intros Hevs Hfresh s1 s2 r.
  assert (Hs1 : exists s1',
    s1 = s1' /\
    st_self s1'
    = set_events (Some (evs ++ [(intent_name (namespaced (st_self s) i),
                                 Wrapper (st_next_wrapper s)
                                         (name (st_self s)) h need_self)]))
        (set_registered_intents
           (registered_intents (st_self s)
            ++ [(intent_name i, namespaced (st_self s) i)]) (st_self s)) /\
    st_trace s1'
    = st_trace s
      ++ [EvEmit (Msg "register_intent"
                      (intent_dict (namespaced (st_self s) i)))]).
  { subst s1. rewrite register_intent_bound_run.
    rewrite add_event_with_handler_run. cbv zeta. simpl. rewrite Hevs.
    eexists. split; [reflexivity|]. simpl. done. }
  destruct Hs1 as (s1' & -> & Hself1 & Htr1).
  assert (Hs2 : s2 = after_events s1'
            [EvLog LDebug ("Disabling intent " +:+ intent_name i);
             EvEmit (detach_intent_message
                       (_unique_name (st_self s1') (intent_name i)))]
            (st_world s1')).
  { subst s2. by rewrite disable_intent_run. }
  assert (Hself2 : st_self s2 = st_self s1') by (by rewrite Hs2).
  assert (Hlis2 : st_listeners s2 = st_listeners s1') by (by rewrite Hs2).
  assert (Htr2 : st_trace s2
                 = st_trace s1'
                   ++ [EvLog LDebug ("Disabling intent " +:+ intent_name i);
                       EvEmit (detach_intent_message
                                 (_unique_name (st_self s1') (intent_name i)))])
    by (by rewrite Hs2).
  clearbody s2. clear Hs2.
  subst r. rewrite enable_intent_unfold.
  destruct (enable_intent_loop_spec (registered_intents (st_self s2))
              (intent_name i) s2)
    as (delta & Hok & Hlis & Hev & Htr & _ & Hsome).
  destruct (Hsome (registered_intents (st_self s))
                  (namespaced (st_self s) i) [])
    as [Hem Hreg]; [by rewrite Hself2, Hself1 | done |].
  split_and!.
  - done.
  - rewrite Htr, Htr2, Htr1. unfold emitted in *. rewrite !omap_app.
    rewrite Hem. simpl. rewrite <- !app_assoc. simpl.
    rewrite Hself2, Hself1. done.
  - rewrite Hreg. rewrite Hself2, Hself1. simpl.
    rewrite remove_first_app_not_in.
    + by rewrite app_nil_r.
    + intros Hin. apply Hfresh.
      apply list_elem_of_fmap. by eexists (_, _).
  - done.
  - done.
  - by rewrite Hlis.
  - by rewrite Hev, Hself2.
Qed.

Lemma detach_loop_run (self : Skill) (l : list (string * Intent))
    (s : state) :
  detach_loop self l s =
  (Ok tt,
   after_events s
     ((fun ni => EvEmit (detach_intent_message (_unique_name self ni.1)))
      <$> l)
     (st_world s)).
Proof.
  revert s. induction l as [|[n i] l IH]; intros s.
  - simpl. unfold ret. by rewrite after_events_nil.
  - simpl. unfold bind at 1. unfold emit. rewrite record_run.
    rewrite IH. by rewrite after_events_app.
Qed.

(** X6. [detach] publishes one [detach_intent] message for every
    recorded intent, in the order of the records, and changes nothing
    else; when every record carries the name it was published under,
    the messages name exactly the published intents. *)
Theorem detach_withdraws_published_intents (s : state) :
  registry_named (st_self s) ->
  (detach s).1 = Ok tt /\
  st_trace (detach s).2
  = st_trace s
    ++ ((fun ni => EvEmit (detach_intent_message (intent_name ni.2)))
        <$> registered_intents (st_self s)) /\
  st_self (detach s).2 = st_self s /\
  st_listeners (detach s).2 = st_listeners s /\
  fallback_handlers (detach s).2 = fallback_handlers s /\
  st_world (detach s).2 = st_world s.
Proof.
  intros Hnamed.
  assert (Hrun : detach s
                 = detach_loop (st_self s) (registered_intents (st_self s)) s)
    by done.
  rewrite Hrun, detach_loop_run. simpl. split_and!; try done.
  f_equal. apply Forall_fmap_ext.
  eapply Forall_impl; [exact Hnamed|].
  intros [n i] Heq. simpl in *. by rewrite Heq.
Qed.

(** *** The wrapper *)

Lemma call_handler_shape (self : string) (h : handler) (need_self : bool)
    (message : Message) (s : state) :
  exists cs,
    (call_handler self h need_self message s).2
    = after_events s cs (st_world (call_handler self h need_self message s).2) /\
    Forall (fun ev => exists args o, ev = EvCall h args o) cs /\
    (length cs <= 2)%nat.
Proof.
  unfold call_handler.
  assert (Hone : forall args,
    exists cs, ((invoke h args ;; ret tt) s).2
               = after_events s cs (st_world ((invoke h args ;; ret tt) s).2)
               /\ Forall (fun ev => exists args o, ev = EvCall h args o) cs
               /\ (length cs <= 2)%nat).
  { intros args. unfold bind. rewrite invoke_run.
    destruct (call h args (st_world s)) as [[b|e] w]; simpl;
      (eexists; split; [done|]; split; [|simpl; lia]);
      repeat constructor; by eexists _, _. }
  assert (Hraise : exists cs,
    (raise (A:=unit) (Exn TypeError "") s).2
    = after_events s cs (st_world (raise (A:=unit) (Exn TypeError "") s).2)
    /\ Forall (fun ev => exists args o, ev = EvCall h args o) cs
    /\ (length cs <= 2)%nat).
  { exists []. rewrite after_events_nil. split; [done|]. split; [done|].
    simpl. lia. }
  destruct need_self; repeat case_match; try apply Hone; try apply Hraise.
  unfold try_except, bind. rewrite invoke_run.
  destruct (call h [ArgSelf self; ArgMessage message] (st_world s))
    as [[b|e] w]; simpl.
  - eexists; split; [done|]; split; [|simpl; lia].
    repeat constructor; by eexists _, _.
  - destruct (except_TypeError e); simpl.
    + rewrite invoke_run. simpl.
      destruct (call h [ArgSelf self] w) as [[b|e'] w']; simpl;
        rewrite after_events_app;
        (eexists; split; [done|]; split; [|simpl; lia]);
        repeat constructor; by eexists _, _.
    + eexists; split; [done|]; split; [|simpl; lia].
      repeat constructor; by eexists _, _.
Qed.

Lemma calls_of_calls (h : handler) (cs : list event) :
  Forall (fun ev => exists args o, ev = EvCall h args o) cs ->
  Forall (fun c => c.1.1 = h) (calls cs) /\
  length (calls cs) = length cs /\
  emitted cs = [] /\
  forall owner, EvSettingsStore owner ∉ cs.
Proof.
  induction 1 as [|ev cs (args & o & ->) Hcs (IH1 & IH2 & IH3 & IH4)].
  - split_and!; try done. intros owner. apply not_elem_of_nil.
  - simpl. split_and!.
    + by constructor.
    + by rewrite IH2.
    + exact IH3.
    + intros owner. apply not_elem_of_cons. split; [done|]. apply IH4.
Qed.

(** X8. The closure that [add_event] subscribes calls nothing but its
    handler, and that at most twice; and it stores the settings exactly
    when the handler's part, the call or calls of the handler, ended
    without an exception. *)
Theorem wrapper_stores_settings_on_success (w : wrapper) (message : Message)
    (s : state) :
  let r := run_wrapper w message s in
  let inner := call_handler (w_owner w) (w_handler w) (w_need_self w) message
                 (after_events s
                    [EvEmit (handler_start (get_handler_name (w_handler w)))]
                    (st_world s)) in
  exists delta,
    st_trace r.2 = st_trace s ++ delta /\
    Forall (fun c => c.1.1 = w_handler w) (calls delta) /\
    (length (calls delta) <= 2)%nat /\
    (EvSettingsStore (w_owner w) ∈ delta <-> inner.1 = Ok tt).
Proof.
  intros r inner. subst r. unfold run_wrapper.
  rewrite wrapper_body_run. fold inner.
  destruct (call_handler_shape (w_owner w) (w_handler w) (w_need_self w)
              message
              (after_events s
                 [EvEmit (handler_start (get_handler_name (w_handler w)))]
                 (st_world s)))
    as (cs & Hs' & Hcs & Hlen).
  fold inner in Hs'.
  destruct (calls_of_calls _ _ Hcs) as (Hall & Hclen & _ & Hnostore).
  destruct inner as [[[]|e] s'] eqn:Hinner; simpl in Hs'; rewrite Hs'; simpl.
  - exists ([EvEmit (handler_start (get_handler_name (w_handler w)))] ++ cs
            ++ wrapper_success_events (w_owner w) (w_handler w)).
    split; [trace_eq|]. unfold calls in *. rewrite !omap_app. simpl.
    rewrite app_nil_r. split_and!; [done | lia |].
    split; [done|]. intros _.
    apply elem_of_cons. right. apply elem_of_app. right. left.
  - exists ([EvEmit (handler_start (get_handler_name (w_handler w)))] ++ cs
            ++ wrapper_failure_events (w_owner w) (w_handler w) e).
    split; [trace_eq|]. unfold calls in *. rewrite !omap_app. simpl.
    rewrite app_nil_r. split_and!; [done | lia |].
    split; [|done]. intros Hin.
    apply elem_of_cons in Hin as [Hin|Hin]; [done|].
    apply elem_of_app in Hin as [Hin|Hin]; [by apply Hnostore in Hin|].
    unfold wrapper_failure_events in Hin.
    repeat (apply elem_of_cons in Hin as [Hin|Hin]; [done|]).
    by apply elem_of_nil in Hin.
Qed.

(** X9. The other call shapes of the wrapper.  A handler that declares
    two arguments is called once, with the message, after the owner
    when the owner is injected; with the owner injected a handler that
    declares one argument is called once with the owner alone; and a
    handler that declares three arguments or more is never called: the
    wrapper raises [TypeError] itself and reports the failure. *)
Theorem wrapper_call_shapes (self : string) (h : handler)
    (need_self : bool) (message : Message) (s : state) :
  exists delta,
    st_trace (wrapper_body self h need_self message s).2 = st_trace s ++ delta /\
    (h_argspec h = 2%nat ->
     calls delta
     = [(h, two_arguments self need_self message,
         (call h (two_arguments self need_self message) (st_world s)).1)]) /\
    (h_argspec h = 1%nat -> need_self = true ->
     calls delta = [(h, [ArgSelf self], (call h [ArgSelf self] (st_world s)).1)]) /\
    ((3 <= h_argspec h)%nat ->
     calls delta = [] /\
     emitted delta = [handler_start (get_handler_name h);
                      speak_message (error_text self) false;
                      handler_complete_exception (get_handler_name h)
                                                 (Exn TypeError "");
                      handler_complete (get_handler_name h)]).
Proof.
  rewrite wrapper_body_run.
  destruct (h_argspec h) as [|[|[|n]]] eqn:Hargs;
    [|unfold call_handler, two_arguments; rewrite Hargs ..].
  - destruct (call_handler_extends self h need_self message
                (after_events s [EvEmit (handler_start (get_handler_name h))]
                              (st_world s))) as (cs & Hcs & _).
    destruct (call_handler self h need_self message
                (after_events s [EvEmit (handler_start (get_handler_name h))]
                              (st_world s))) as [[[]|e] s'];
      simpl in Hcs; rewrite Hcs;
      (eexists; split; [trace_eq|]; split_and!; [done | done | lia]).
  - destruct need_self; simpl; unfold bind; rewrite invoke_run; simpl.
    + destruct (call h [ArgSelf self] (st_world s)) as [[b|e] w]; simpl;
        (eexists; split; [trace_eq|]; split_and!; [done | done | lia]).
    + destruct (call h [] (st_world s)) as [[b|e] w]; simpl;
        (eexists; split; [trace_eq|]; split_and!; [done | done | lia]).
  - destruct need_self; simpl; unfold bind; rewrite invoke_run; simpl.
    + destruct (call h [ArgSelf self; ArgMessage message] (st_world s))
        as [[b|e] w]; simpl;
        (eexists; split; [trace_eq|]; split_and!; [done | done | lia]).
    + destruct (call h [ArgMessage message] (st_world s)) as [[b|e] w]; simpl;
        (eexists; split; [trace_eq|]; split_and!; [done | done | lia]).
  - destruct need_self; simpl; unfold raise; simpl;
      (eexists; split; [trace_eq|]; split_and!; [done | done | done]).
Qed.

(** *** Shutdown, once more *)

Lemma remove_events_state (evs : list (string * wrapper)) (s : state) :
  remove_events evs s
  = (Ok tt, set_listeners (unsubscribed evs (st_listeners s)) s).
Proof.
  revert s. induction evs as [|[e f] evs IH]; intros s.
  - destruct s. done.
  - simpl. unfold bind at 1. unfold emitter_remove, modify.
    rewrite IH. done.
Qed.

Lemma remove_first_other {A} `{EqDecision A} (x y : A) (l : list A) :
  y ∈ l -> y <> x -> y ∈ remove_first x l.
Proof.
  induction l as [|z l IH]; simpl; [done|].
  intros Hin Hne. destruct (decide (z = x)) as [->|Hzx].
  - apply elem_of_cons in Hin as [->|Hin]; done.
  - apply elem_of_cons in Hin as [->|Hin]; [left | right; auto].
Qed.

Lemma unsubscribed_other (evs l : list (string * wrapper))
    (x : string * wrapper) :
  x ∈ l -> x ∉ evs -> x ∈ unsubscribed evs l.
Proof.
  revert l. induction evs as [|y evs IH]; intros l Hin Hout; [done|].
  apply not_elem_of_cons in Hout as [Hne Hout].
  simpl. apply IH; [|done]. by apply remove_first_other.
Qed.

Lemma MycroftSkill_shutdown_state (s : state)
    (evs : list (string * wrapper)) :
  events (st_self s) = Some evs ->
  MycroftSkill_shutdown s =
  (Ok tt,
   State (st_trace s
          ++ [EvSettingsStore (name (st_self s));
              EvSettingsNotAlive (name (st_self s));
              EvEmit (Msg "detach_skill"
                          {[ "skill_id"
                             := VStr (pretty (skill_id (st_self s)) +:+ ":") ]});
              EvCall (stop (st_self s)) []
                     (call (stop (st_self s)) [] (st_world s)).1]
          ++ match (call (stop (st_self s)) [] (st_world s)).1 with
             | Raise _ =>
                 [EvLog LError ("Failed to stop skill: "
                                +:+ name (st_self s))]
             | Return _ => []
             end)
         (unsubscribed evs (st_listeners s))
         (st_next_wrapper s)
         (fallback_handlers s)
         (set_events None (st_self s))
         (call (stop (st_self s)) [] (st_world s)).2).
Proof.
  intros Hevs. unfold MycroftSkill_shutdown.
  unfold bind at 1. unfold get at 1.
  unfold bind at 1. unfold settings_store. rewrite record_run.
  unfold bind at 1. rewrite record_run. rewrite after_events_app.
  unfold bind at 1. rewrite Hevs. rewrite remove_events_state.
  unfold bind at 1. unfold modify_self at 1. unfold modify at 1.
  unfold bind at 1. unfold emit. rewrite record_run.
  unfold try_except, bind. rewrite invoke_run. simpl.
  destruct (call (stop (st_self s)) [] (st_world s)) as [[b|e] w];
    cbn [fst snd]; unfold log; rewrite ?record_run; destruct s;
    cbv [after_events set_world set_trace set_self set_listeners
         st_trace st_listeners st_next_wrapper fallback_handlers st_self
         st_world];
    rewrite <- !app_assoc; reflexivity.
Qed.

Lemma MycroftSkill_shutdown_again (s : state) :
  events (st_self s) = None ->
  MycroftSkill_shutdown s =
  (Raised (Exn TypeError "'NoneType' object is not iterable"),
   after_events s
     [EvSettingsStore (name (st_self s));
      EvSettingsNotAlive (name (st_self s))]
     (st_world s)).
Proof.
  intros Hevs. unfold MycroftSkill_shutdown.
  unfold bind at 1. unfold get at 1.
  unfold bind at 1. unfold settings_store. rewrite record_run.
  unfold bind at 1. rewrite record_run. rewrite after_events_app.
  unfold bind at 1. rewrite Hevs. done.
Qed.

(** X10. [shutdown] of [MycroftSkill] completes whatever [stop] does.
    It stores the settings and marks them not alive, removes each pair
    of [events] from the bus once, drops [events], publishes
    [detach_skill] and only then calls [stop], once and with no
    argument; an exception of [stop] leaves one error line in the log
    and goes no further.  The fallback registry is not touched. *)
Theorem shutdown_contains_stop_failure (s : state)
    (evs : list (string * wrapper)) :
  events (st_self s) = Some evs ->
  let self := st_self s in
  let o := call (stop self) [] (st_world s) in
  let r := MycroftSkill_shutdown s in
  r.1 = Ok tt /\
  st_trace r.2
  = st_trace s
    ++ [EvSettingsStore (self_name self);
        EvSettingsNotAlive (self_name self);
        EvEmit (Msg "detach_skill"
                    {[ "skill_id" := VStr (pretty (skill_id self) +:+ ":") ]});
        EvCall (stop self) [] o.1]
    ++ match o.1 with
       | Raise _ => [EvLog LError ("Failed to stop skill: "
                                   +:+ self_name self)]
       | Return _ => []
       end /\
  st_world r.2 = o.2 /\
  st_listeners r.2 = unsubscribed evs (st_listeners s) /\
  st_self r.2 = set_events None self /\
  fallback_handlers r.2 = fallback_handlers s.
Proof.
  intros Hevs self o r. subst r.
  rewrite (MycroftSkill_shutdown_state s evs Hevs). done.
Qed.

(** X11. [shutdown] removes from the bus only what the skill lists in
    [events]: a subscription that is not among them, another skill's
    for instance, is still there when the shutdown of a fallback skill
    has completed. *)
Theorem shutdown_leaves_other_subscriptions (s : state)
    (evs : list (string * wrapper)) (x : string * wrapper) :
  events (st_self s) = Some evs ->
  x ∈ st_listeners s ->
  x ∉ evs ->
  (FallbackSkill_shutdown s).1 = Ok tt /\
  x ∈ st_listeners (FallbackSkill_shutdown s).2.
Proof.
  intros Hevs Hin Hout.
  assert (Hrun : exists s1,
    FallbackSkill_shutdown s = MycroftSkill_shutdown s1 /\
    st_listeners s1 = st_listeners s /\
    events (st_self s1) = Some evs).
  { unfold FallbackSkill_shutdown, remove_instance_handlers.
    unfold bind at 1. unfold bind at 1. unfold get at 1.
    destruct (remove_instance_loop_run
                (rev (instance_fallback_handlers (st_self s))) s)
      as (s1 & Hloop & Hlis & Hself & _).
    rewrite Hloop. exists s1. split; [done|]. split; [done|].
    rewrite Hself. by destruct (rev _). }
  destruct Hrun as (s1 & -> & Hlis & Hevs1).
  rewrite (MycroftSkill_shutdown_state s1 evs Hevs1). simpl.
  split; [done|]. rewrite Hlis. by apply unsubscribed_other.
Qed.

(** X12. Binding after shutdown: [shutdown] leaves [events] as [None],
    so a later [add_event] with a handler raises [AttributeError], but
    only after it has subscribed the new closure on the bus.  The
    closure is then delivered the event, and another [shutdown] cannot
    take it away: it raises [TypeError] before it removes anything. *)
Theorem add_event_after_shutdown_leaves_subscription (s0 : state)
    (evs : list (string * wrapper)) (ev_name : string) (h : handler)
    (need_self : bool) :
  events (st_self s0) = Some evs ->
  let s := (MycroftSkill_shutdown s0).2 in
  let w := Wrapper (st_next_wrapper s0) (self_name (st_self s0)) h need_self in
  let r := add_event ev_name (Some h) need_self s in
  let r' := MycroftSkill_shutdown r.2 in
  r.1 = Raised (Exn AttributeError
                    "'NoneType' object has no attribute 'append'") /\
  st_listeners r.2 = st_listeners s ++ [(ev_name, w)] /\
  w ∈ delivered_to r.2 ev_name /\
  r'.1 = Raised (Exn TypeError "'NoneType' object is not iterable") /\
  st_listeners r'.2 = st_listeners r.2 /\
  w ∈ delivered_to r'.2 ev_name.
Proof.
  intros Hevs s w r r'.
  assert (Hs : events (st_self s) = None /\
               st_next_wrapper s = st_next_wrapper s0 /\
               name (st_self s) = name (st_self s0)).
  { subst s. by rewrite (MycroftSkill_shutdown_state s0 evs Hevs). }
  destruct Hs as (Hnone & Hnext & Hname). clearbody s.
  assert (Hr : r = (Raised (Exn AttributeError
                                "'NoneType' object has no attribute 'append'"),
                    set_listeners (st_listeners s ++ [(ev_name, w)])
                      (set_next_wrapper (S (st_next_wrapper s)) s))).
  { subst r w. rewrite add_event_with_handler_run. cbv zeta.
    rewrite Hnone, Hnext, Hname. done. }
  clearbody r. subst r. simpl in r'. simpl.
  assert (Hr' : r' = (Raised (Exn TypeError "'NoneType' object is not iterable"),
                      after_events
                        (set_listeners (st_listeners s ++ [(ev_name, w)])
                           (set_next_wrapper (S (st_next_wrapper s)) s))
                        [EvSettingsStore (name (st_self s));
                         EvSettingsNotAlive (name (st_self s))]
                        (st_world s))).
  { subst r'. by rewrite MycroftSkill_shutdown_again. }
  clearbody r'. subst r'. simpl.
  split_and!; try done.
  - apply delivered_to_elem. simpl. apply elem_of_app. right. left.
  - apply delivered_to_elem. simpl. apply elem_of_app. right. left.
Qed.

(** *** The fallback registry, once more *)

Lemma remove_fallback_state (h : handler) (s : state) :
  remove_fallback h s =
  match find_fallback (items (fallback_handlers s)) h with
  | Some priority =>
      (Ok tt, set_fallback_handlers (delete priority (fallback_handlers s)) s)
  | None =>
      (Ok tt, after_events s [EvLog LWarning "Could not remove fallback!"]
                           (st_world s))
  end.
Proof.
  unfold remove_fallback, bind, get.
  destruct (find_fallback _ _); [done|].
  unfold log. by rewrite record_run.
Qed.

(** X13. Registering a handler that the registry does not hold and
    removing it again gives the registry back as it was, whatever the
    priority asked for and whatever entries it was moved past.  The
    skill's own list still names the handler afterwards, for
    [remove_fallback] does not touch it; a second removal finds nothing
    and only logs a warning. *)
Theorem register_then_remove_fallback_restores_registry (s : state)
    (h : handler) (priority : Z) :
  (forall q, fallback_handlers s !! q <> Some h) ->
  let s1 := (register_fallback h priority s).2 in
  let r := remove_fallback h s1 in
  let r' := remove_fallback h r.2 in
  (register_fallback h priority s).1 = Ok tt /\
  r.1 = Ok tt /\
  fallback_handlers r.2 = fallback_handlers s /\
  st_trace r.2 = st_trace s /\
  instance_fallback_handlers (st_self r.2)
  = instance_fallback_handlers (st_self s) ++ [h] /\
  r'.1 = Ok tt /\
  fallback_handlers r'.2 = fallback_handlers s /\
  st_trace r'.2 = st_trace s ++ [EvLog LWarning "Could not remove fallback!"].
Proof.
  intros Hnot s1 r r'.
  set (slot := assigned_priority (fallback_handlers s) priority).
  assert (Hfree : fallback_handlers s !! slot = None)
    by apply assigned_priority_free.
  assert (Hs1 : s1 = set_fallback_handlers
                       (<[slot := h]> (fallback_handlers s))
                       (set_self
                          (set_instance_fallback_handlers
                             (instance_fallback_handlers (st_self s) ++ [h])
                             (st_self s)) s)) by done.
  clearbody s1. subst s1.
  assert (Hr : r = (Ok tt,
                    set_fallback_handlers (fallback_handlers s)
                      (set_self
                         (set_instance_fallback_handlers
                            (instance_fallback_handlers (st_self s) ++ [h])
                            (st_self s)) s))).
  { subst r. rewrite remove_fallback_state. simpl.
    destruct (find_fallback (items (<[slot := h]> (fallback_handlers s))) h)
      as [q|] eqn:Hfind.
    - destruct (find_fallback_Some _ _ _ Hfind) as (pre & post & Hits & _).
      assert (Hq : <[slot := h]> (fallback_handlers s) !! q = Some h).
      { apply items_elem_of. rewrite Hits. apply elem_of_app. right. left. }
      destruct (decide (q = slot)) as [->|Hne].
      + rewrite delete_insert_eq. rewrite delete_id by done. done.
      + rewrite lookup_insert_ne in Hq by done. by apply Hnot in Hq.
    - apply find_fallback_None in Hfind. rewrite Forall_forall in Hfind.
      exfalso. apply (Hfind (slot, h)); [|done].
      apply items_elem_of. apply lookup_insert_eq. }
  clearbody r. subst r. simpl in r'.
  assert (Hr' : r' = (Ok tt,
                      after_events
                        (set_fallback_handlers (fallback_handlers s)
                           (set_self
                              (set_instance_fallback_handlers
                                 (instance_fallback_handlers (st_self s) ++ [h])
                                 (st_self s)) s))
                        [EvLog LWarning "Could not remove fallback!"]
                        (st_world s))).
  { subst r'. rewrite remove_fallback_state. simpl.
    destruct (find_fallback (items (fallback_handlers s)) h) as [q|] eqn:Hfind;
      [|done].
    destruct (find_fallback_Some _ _ _ Hfind) as (pre & post & Hits & _).
    exfalso. apply (Hnot q). apply items_elem_of. rewrite Hits.
    apply elem_of_app. right. left. }
  clearbody r'. subst r'. simpl. done.
Qed.

Lemma remove_fallback_frame (h : handler) (s : state) (q : Z) (h' : handler) :
  (fallback_handlers (remove_fallback h s).2 !! q = Some h' ->
   fallback_handlers s !! q = Some h') /\
  (h' <> h -> fallback_handlers s !! q = Some h' ->
   fallback_handlers (remove_fallback h s).2 !! q = Some h').
Proof.
  rewrite remove_fallback_state.
  destruct (find_fallback (items (fallback_handlers s)) h) as [p|] eqn:Hfind;
    simpl; [|done].
  destruct (find_fallback_Some _ _ _ Hfind) as (pre & post & Hits & _).
  assert (Hp : fallback_handlers s !! p = Some h).
  { apply items_elem_of. rewrite Hits. apply elem_of_app. right. left. }
  split.
  - intros Hq. apply lookup_delete_Some in Hq as [_ Hq]. done.
  - intros Hne Hq. apply lookup_delete_Some. split; [|done].
    intros ->. congruence.
Qed.

Lemma remove_instance_loop_cons (h : handler) (stack : list handler)
    (s : state) :
  remove_instance_loop (h :: stack) s
  = remove_instance_loop stack
      (remove_fallback h
         (set_self (set_instance_fallback_handlers (rev stack) (st_self s))
                   s)).2.
Proof.
  simpl. unfold bind at 1. unfold modify_self at 1. unfold modify at 1.
  unfold bind at 1.
  match goal with
  | |- context [remove_fallback h ?s1] =>
      destruct (remove_fallback_run h s1) as (Hok & _);
      destruct (remove_fallback h s1) as [res s2]
  end.
  simpl in Hok. by subst res.
Qed.

Lemma remove_instance_loop_frame (stack : list handler) (s : state) (q : Z)
    (h' : handler) :
  (fallback_handlers (remove_instance_loop stack s).2 !! q = Some h' ->
   fallback_handlers s !! q = Some h') /\
  (h' ∉ stack -> fallback_handlers s !! q = Some h' ->
   fallback_handlers (remove_instance_loop stack s).2 !! q = Some h').
Proof.
  revert s. induction stack as [|h stack IH]; intros s; [done|].
  rewrite remove_instance_loop_cons.
  pose proof (remove_fallback_frame h
                (set_self (set_instance_fallback_handlers (rev stack)
                                                          (st_self s)) s)
                q h') as [Hsub Hkeep].
  simpl in Hsub, Hkeep.
  destruct (IH (remove_fallback h
                  (set_self (set_instance_fallback_handlers (rev stack)
                                                            (st_self s)) s)).2)
    as [IHsub IHkeep].
  split.
  - intros Hq. apply Hsub. by apply IHsub.
  - intros Hout Hq. apply not_elem_of_cons in Hout as [Hne Hout].
    apply IHkeep; [done|]. by apply Hkeep.
Qed.

(** X14. [remove_instance_handlers] takes entries out of the shared
    registry and puts none in; an entry whose handler the skill has not
    registered stays under its priority; and the skill's own list is
    empty afterwards. *)
Theorem remove_instance_handlers_leaves_other_handlers (s : state) (q : Z)
    (h : handler) :
  fallback_handlers s !! q = Some h ->
  h ∉ instance_fallback_handlers (st_self s) ->
  let r := remove_instance_handlers s in
  r.1 = Ok tt /\
  fallback_handlers r.2 !! q = Some h /\
  instance_fallback_handlers (st_self r.2) = [] /\
  st_listeners r.2 = st_listeners s /\
  forall q' h', fallback_handlers r.2 !! q' = Some h' ->
                fallback_handlers s !! q' = Some h'.
Proof.
  intros Hq Hout r.
  assert (Hr : r = remove_instance_loop
                     (rev (instance_fallback_handlers (st_self s))) s) by done.
  clearbody r. subst r.
  destruct (remove_instance_loop_run
              (rev (instance_fallback_handlers (st_self s))) s)
    as (s' & Hloop & Hlis & Hself & _).
  split_and!.
  - by rewrite Hloop.
  - apply remove_instance_loop_frame; [|done].
    intros Hin. apply Hout. apply list_elem_of_In, in_rev.
    by apply list_elem_of_In.
  - rewrite Hloop. simpl. rewrite Hself.
    destruct (rev (instance_fallback_handlers (st_self s))) as [|h0 l] eqn:Hrev;
      [|done].
    apply (f_equal (@rev handler)) in Hrev. rewrite rev_involutive in Hrev. done.
  - by rewrite Hloop.
  - intros q' h'. apply remove_instance_loop_frame.
Qed.

(** *** Bindings made by the registrations *)

Lemma register_intent_builder_run (i : Intent) (h : option handler)
    (need_self : bool) (s : state) :
  register_intent (IsIntentBuilder i) h need_self s
  = register_intent (IsIntent i) h need_self s.
Proof. done. Qed.

Lemma register_intent_file_bound_run (intent_file : string) (h : handler)
    (need_self : bool) (s : state) :
  register_intent_file intent_file (Some h) need_self s =
  add_event (_unique_name (st_self s) intent_file) (Some h) need_self
    (after_events s
       [EvEmit (Msg "padatious:register_intent"
                    {[ "file_name"
                       := VStr (join (vocab_dir (st_self s)) intent_file);
                       "name" := VStr (_unique_name (st_self s) intent_file) ]})]
       (st_world s)).
Proof.
  unfold register_intent_file. unfold bind at 1. unfold get at 1.
  unfold bind at 1. unfold emit. by rewrite record_run.
Qed.

Lemma bindings_inv_frame (s s' : state) :
  st_listeners s' = st_listeners s ->
  events (st_self s') = events (st_self s) ->
  (st_next_wrapper s <= st_next_wrapper s')%nat ->
  bindings_inv s -> bindings_inv s'.
Proof.
  intros Hlis Hev Hnext (Hnd & Hlt & Hevs). unfold bindings_inv.
  rewrite Hlis, Hev. split_and!.
  - done.
  - intros e f Hin. apply Hlt in Hin. lia.
  - intros evs e f Hsome Hin. destruct (Hevs evs e f Hsome Hin) as [Hid Hn].
    split; [lia | done].
Qed.

Lemma enable_intent_loop_next (l : list (string * Intent)) (n : string)
    (s : state) :
  (st_next_wrapper s <= st_next_wrapper (enable_intent_loop l n s).2)%nat.
Proof.
  revert s. induction l as [|[n' i'] l IH]; intros s; [done|].
  destruct (decide (n' = n)) as [->|Hne].
  - rewrite enable_intent_loop_hit. simpl. lia.
  - rewrite enable_intent_loop_skip by done.
    etransitivity; [|apply IH]. done.
Qed.

(** X15. What the shutdown property asks of the bus is kept by the
    methods a skill registers and enables its intents with: when each
    closure is subscribed once, under the name the skill lists it
    with, this is still so after [register_intent] and
    [register_intent_file] with a handler, and after
    [enable_intent]. *)
Theorem registrations_keep_bindings_inv (p : intent_parser)
    (intent_file n : string) (h : handler) (need_self : bool) (s : state) :
  bindings_inv s ->
  ((register_intent p (Some h) need_self s).1 = Ok tt ->
   bindings_inv (register_intent p (Some h) need_self s).2) /\
  ((register_intent_file intent_file (Some h) need_self s).1 = Ok tt ->
   bindings_inv (register_intent_file intent_file (Some h) need_self s).2) /\
  bindings_inv (enable_intent n s).2.
Proof.
  intros Hinv. split_and!.
  - assert (Hi : forall i,
      (register_intent (IsIntent i) (Some h) need_self s).1 = Ok tt ->
      bindings_inv (register_intent (IsIntent i) (Some h) need_self s).2).
    { intros i. rewrite register_intent_bound_run.
      apply add_event_keeps_bindings_inv.
      by apply (bindings_inv_frame s). }
    destruct p as [i|i|].
    + rewrite register_intent_builder_run. apply Hi.
    + apply Hi.
    + done.
  - rewrite register_intent_file_bound_run.
    apply add_event_keeps_bindings_inv.
    by apply (bindings_inv_frame s).
  - rewrite enable_intent_unfold.
    destruct (enable_intent_loop_spec (registered_intents (st_self s)) n s)
      as (delta & _ & Hlis & Hev & _).
    apply (bindings_inv_frame s); [done | done | | done].
    apply enable_intent_loop_next.
Qed.

Lemma register_decorated_step (ev_name : string) (h : handler) (s s0 : state)
    (evs : list (string * wrapper)) :
  events (st_self s0) = Some evs ->
  st_listeners s0 = st_listeners s ->
  st_next_wrapper s0 = st_next_wrapper s ->
  name (st_self s0) = name (st_self s) ->
  skill_id (st_self s0) = skill_id (st_self s) ->
  exists s1,
    add_event ev_name (Some h) true s0 = (Ok tt, s1) /\
    st_listeners s1
    = st_listeners s
      ++ [(ev_name, Wrapper (st_next_wrapper s) (name (st_self s)) h true)] /\
    events (st_self s1)
    = Some (evs ++ [(ev_name,
                     Wrapper (st_next_wrapper s) (name (st_self s)) h true)]) /\
    st_next_wrapper s1 = S (st_next_wrapper s) /\
    name (st_self s1) = name (st_self s) /\
    skill_id (st_self s1) = skill_id (st_self s).
Proof.
  intros Hevs Hlis Hnext Hname Hid.
  rewrite add_event_with_handler_run. cbv zeta. rewrite Hevs.
  eexists. split; [done|]. simpl.
  by rewrite Hlis, Hnext, Hname.
Qed.

Lemma decorated_bindings_app (next : nat) (owner : string)
    (l1 l2 : list (string * handler)) :
  decorated_bindings next owner (l1 ++ l2)
  = decorated_bindings next owner l1
    ++ decorated_bindings (next + length l1) owner l2.
Proof.
  revert next. induction l1 as [|[n h] l1 IH]; intros next; simpl.
  - by rewrite Nat.add_0_r.
  - rewrite IH. do 3 f_equal. lia.
Qed.

Lemma register_decorated_intents_run (pre rest : list (intent_parser * handler))
    (s : state) (evs : list (string * wrapper)) :
  events (st_self s) = Some evs ->
  Forall (fun ph => ph.1 <> IsOther) pre ->
  exists s',
    register_decorated_intents (pre ++ rest) s
    = register_decorated_intents rest s' /\
    st_listeners s'
    = st_listeners s
      ++ decorated_bindings (st_next_wrapper s) (name (st_self s))
           (decorated_names (st_self s) pre []) /\
    events (st_self s')
    = Some (evs
            ++ decorated_bindings (st_next_wrapper s) (name (st_self s))
                 (decorated_names (st_self s) pre [])) /\
    st_next_wrapper s' = (st_next_wrapper s + length pre)%nat /\
    name (st_self s') = name (st_self s) /\
    skill_id (st_self s') = skill_id (st_self s).
Proof.
  intros Hevs Hvalid. revert s evs Hevs.
  induction Hvalid as [|[p h] pre Hp Hpre IH]; intros s evs Hevs.
  - exists s. unfold decorated_names. simpl. rewrite !app_nil_r.
    split_and!; done.
  - simpl in Hp.
    assert (Hstep : exists s1,
      register_intent p (Some h) true s = (Ok tt, s1) /\
      st_listeners s1
      = st_listeners s
        ++ [(_unique_name (st_self s) (parser_name p),
             Wrapper (st_next_wrapper s) (name (st_self s)) h true)] /\
      events (st_self s1)
      = Some (evs ++ [(_unique_name (st_self s) (parser_name p),
                       Wrapper (st_next_wrapper s) (name (st_self s)) h true)]) /\
      st_next_wrapper s1 = S (st_next_wrapper s) /\
      name (st_self s1) = name (st_self s) /\
      skill_id (st_self s1) = skill_id (st_self s)).
    { destruct p as [i|i|]; [| |done];
        rewrite ?register_intent_builder_run, register_intent_bound_run;
        by apply (register_decorated_step _ h s _ evs). }
    destruct Hstep as (s1 & Hrun & Hlis1 & Hev1 & Hnext1 & Hname1 & Hid1).
    destruct (IH s1 _ Hev1)
      as (s' & Hloop & Hlis & Hev & Hnext & Hname & Hid).
    exists s'. split_and!.
    + rewrite <- app_comm_cons. simpl. unfold bind at 1. by rewrite Hrun.
    + rewrite Hlis, Hlis1, Hnext1, Hname1. rewrite <- app_assoc.
      unfold decorated_names, _unique_name. rewrite Hid1. simpl. done.
    + rewrite Hev, Hnext1, Hname1. rewrite <- app_assoc.
      unfold decorated_names, _unique_name. rewrite Hid1. simpl. done.
    + rewrite Hnext, Hnext1. simpl. lia.
    + by rewrite Hname.
    + by rewrite Hid.
Qed.

Lemma register_decorated_files_run (l : list (string * handler)) (s : state)
    (evs : list (string * wrapper)) :
  events (st_self s) = Some evs ->
  exists s',
    register_decorated_files l s = (Ok tt, s') /\
    st_listeners s'
    = st_listeners s
      ++ decorated_bindings (st_next_wrapper s) (name (st_self s))
           (decorated_names (st_self s) [] l) /\
    events (st_self s')
    = Some (evs
            ++ decorated_bindings (st_next_wrapper s) (name (st_self s))
                 (decorated_names (st_self s) [] l)).
Proof.
  revert s evs. induction l as [|[f h] l IH]; intros s evs Hevs.
  - exists s. unfold decorated_names. simpl. by rewrite !app_nil_r.
  - destruct (register_decorated_step (_unique_name (st_self s) f) h s
                (after_events s
                   [EvEmit (Msg "padatious:register_intent"
                                {[ "file_name"
                                   := VStr (join (vocab_dir (st_self s)) f);
                                   "name"
                                   := VStr (_unique_name (st_self s) f) ]})]
                   (st_world s)) evs)
      as (s1 & Hrun & Hlis1 & Hev1 & Hnext1 & Hname1 & Hid1); try done.
    destruct (IH s1 _ Hev1) as (s' & Hloop & Hlis & Hev).
    exists s'. split_and!.
    + simpl. unfold bind at 1.
      rewrite register_intent_file_bound_run. by rewrite Hrun.
    + rewrite Hlis, Hlis1, Hnext1, Hname1. rewrite <- app_assoc.
      unfold decorated_names, _unique_name. rewrite Hid1. simpl. done.
    + rewrite Hev, Hnext1, Hname1. rewrite <- app_assoc.
      unfold decorated_names, _unique_name. rewrite Hid1. simpl. done.
Qed.

(** X16. [_register_decorated] binds every decorated intent and then
    every decorated intent file, in the order of the two lists, each
    under its namespaced name and each with the owner injected, and
    leaves both lists empty.  When an entry of the first list is not an
    intent, it stops there with [ValueError]: the entries before it are
    bound, and the lists are not emptied. *)
Theorem register_decorated_binds_with_owner
    (_intent_list : list (intent_parser * handler))
    (_intent_file_list : list (string * handler)) (s : state)
    (evs : list (string * wrapper)) :
  events (st_self s) = Some evs ->
  let self := st_self s in
  let r := _register_decorated _intent_list _intent_file_list s in
  (Forall (fun ph => ph.1 <> IsOther) _intent_list ->
   let made := decorated_bindings (st_next_wrapper s) (self_name self)
                 (decorated_names self _intent_list _intent_file_list) in
   r.1 = Ok ([], []) /\
   st_listeners r.2 = st_listeners s ++ made /\
   events (st_self r.2) = Some (evs ++ made)) /\
  (forall pre h post,
     _intent_list = pre ++ (IsOther, h) :: post ->
     Forall (fun ph => ph.1 <> IsOther) pre ->
     r.1 = Raised (Exn ValueError "intent_parser is not an Intent") /\
     st_listeners r.2
     = st_listeners s
       ++ decorated_bindings (st_next_wrapper s) (self_name self)
            (decorated_names self pre [])).
Proof.
  intros Hevs self r. split.
  - intros Hvalid made.
    destruct (register_decorated_intents_run _intent_list [] s evs Hevs Hvalid)
      as (s1 & Hrun & Hlis1 & Hev1 & Hnext1 & Hname1 & Hid1).
    rewrite app_nil_r in Hrun. simpl in Hrun.
    destruct (register_decorated_files_run _intent_file_list s1 _ Hev1)
      as (s2 & Hrun2 & Hlis2 & Hev2).
    assert (Hr : r = (Ok ([], []), s2)).
    { subst r. unfold _register_decorated. unfold bind at 1. rewrite Hrun.
      unfold ret at 1. unfold bind at 1. by rewrite Hrun2. }
    clearbody r. subst r. simpl.
    assert (Hmade : made
      = decorated_bindings (st_next_wrapper s) (name (st_self s))
          (decorated_names (st_self s) _intent_list [])
        ++ decorated_bindings (st_next_wrapper s1) (name (st_self s1))
             (decorated_names (st_self s1) [] _intent_file_list)).
    { subst made self. unfold self_name, decorated_names, _unique_name.
      simpl. rewrite app_nil_r. rewrite decorated_bindings_app.
      rewrite length_fmap. by rewrite Hnext1, Hname1, Hid1. }
    split_and!; [done | |].
    + rewrite Hlis2, Hlis1, Hmade. by rewrite app_assoc.
    + rewrite Hev2, Hmade. by rewrite app_assoc.
  - intros pre h post Hl Hvalid.
    destruct (register_decorated_intents_run pre ((IsOther, h) :: post) s evs
                Hevs Hvalid)
      as (s1 & Hrun & Hlis1 & _).
    assert (Hr : r = (Raised (Exn ValueError "intent_parser is not an Intent"),
                      s1)).
    { subst r. unfold _register_decorated. unfold bind at 1.
      rewrite Hl, Hrun. done. }
    clearbody r. subst r. simpl. done.
Qed.

(** *** Functions of the module *)

Lemma str_split_length (sep : Ascii.ascii) (s : string) :
  length (str_split sep s) = S (str_count sep s).
Proof.
  induction s as [|c s IH]; [done|]. simpl.
  destruct (Ascii.eqb c sep); simpl; [by rewrite IH|].
  destruct (str_split sep s) as [|part parts]; simpl in *; [done|]. done.
Qed.

Lemma register_aliases_run (aliases : list string) (entity vocab_type : string)
    (s : state) :
  register_aliases aliases entity vocab_type s =
  (Ok tt,
   after_events s
     (EvEmit <$> ((fun alias =>
                     Msg "register_vocab"
                         {[ "start" := VStr alias; "end" := VStr vocab_type;
                            "alias_of" := VStr entity ]}) <$> aliases))
     (st_world s)).
Proof.
  revert s. induction aliases as [|alias aliases IH]; intros s.
  - simpl. unfold ret. by rewrite after_events_nil.
  - simpl. unfold bind at 1. unfold emit. rewrite record_run.
    rewrite IH. by rewrite after_events_app.
Qed.

Lemma load_vocab_lines_run (lines : list string) (vocab_type : string)
    (s : state) :
  load_vocab_lines lines vocab_type s =
  (Ok tt,
   after_events s
     (EvEmit <$> concat (vocab_messages vocab_type <$> lines))
     (st_world s)).
Proof.
  revert s. induction lines as [|line lines IH]; intros s.
  - simpl. unfold ret. by rewrite after_events_nil.
  - simpl. unfold vocab_messages.
    pose proof (str_split_length bar (strip line)) as Hlen.
    destruct (str_split bar (strip line)) as [|entity aliases]; [done|].
    unfold bind at 1. unfold emit. rewrite record_run.
    unfold bind at 1. rewrite register_aliases_run.
    rewrite IH. rewrite !after_events_app. simpl.
    by rewrite fmap_app.
Qed.

Lemma vocab_messages_length (vocab_type line : string) :
  length (vocab_messages vocab_type line) = S (str_count bar (strip line)).
Proof.
  unfold vocab_messages.
  pose proof (str_split_length bar (strip line)) as Hlen.
  destruct (str_split bar (strip line)) as [|entity aliases]; [done|].
  simpl in *. by rewrite length_fmap.
Qed.

Lemma vocab_messages_end (vocab_type line : string) :
  Forall (fun m => msg_type m = "register_vocab" /\
                   msg_data m !! "end" = Some (VStr vocab_type))
         (vocab_messages vocab_type line).
Proof.
  unfold vocab_messages.
  destruct (str_split bar (strip line)) as [|entity aliases]; [done|].
  constructor.
  - split; [done|]. simpl. rewrite lookup_insert_ne by done.
    by rewrite lookup_singleton_eq.
  - apply Forall_fmap. apply Forall_true. intros alias. split; [done|].
    simpl. rewrite lookup_insert_ne by done. by rewrite lookup_insert_eq.
Qed.

Lemma vocab_messages_total (vocab_type : string) (lines : list string) :
  length (concat (vocab_messages vocab_type <$> lines))
  = (length lines
     + sum_list ((fun line => str_count bar (strip line)) <$> lines))%nat.
Proof.
  induction lines as [|line lines IH]; [done|].
  rewrite !fmap_cons. cbn [concat sum_list sum_list_with length].
  rewrite length_app, vocab_messages_length, IH. unfold id. lia.
Qed.

(** X17. [load_vocab_from_file] never raises on the lines of a file it
    could read.  For a path that does not end in [.voc] it publishes
    nothing.  Otherwise it publishes, line by line, one [register_vocab]
    message for every part between the bars of the stripped line, each
    with the vocabulary type as [end]: as many messages as there are
    lines and bars together, so that a line without text registers the
    empty string. *)
Theorem load_vocab_from_file_one_message_per_part (path vocab_type : string)
    (voc_file : list string) (s : state) :
  let r := load_vocab_from_file path vocab_type voc_file s in
  r.1 = Ok tt /\
  st_listeners r.2 = st_listeners s /\
  st_self r.2 = st_self s /\
  exists delta,
    st_trace r.2 = st_trace s ++ (EvEmit <$> delta) /\
    (str_endswith ".voc" path = false -> delta = []) /\
    (str_endswith ".voc" path = true ->
     delta = concat (vocab_messages vocab_type <$> voc_file) /\
     length delta
     = (length voc_file
        + sum_list ((fun line => str_count bar (strip line)) <$> voc_file))%nat /\
     Forall (fun m => msg_type m = "register_vocab" /\
                      msg_data m !! "end" = Some (VStr vocab_type)) delta).
Proof.
  intros r. subst r. unfold load_vocab_from_file.
  destruct (str_endswith ".voc" path).
  - rewrite load_vocab_lines_run. simpl. split_and!; try done.
    eexists. split; [done|]. split; [done|]. intros _. split; [done|]. split.
    + apply vocab_messages_total.
    + apply Forall_concat. apply Forall_fmap. apply Forall_true.
      intros line. apply vocab_messages_end.
  - simpl. split_and!; try done. exists []. simpl. rewrite app_nil_r.
    split; [done|]. split; done.
Qed.

(** X18. What [register_intent] publishes, [open_intent_envelope]
    reads back: the message has the four entries of the intent, under
    its namespaced name, and an intent is determined by what is read. *)
Theorem published_intent_opens_to_namespaced (i : Intent)
    (h : option handler) (need_self : bool) (s : state) :
  (exists m,
     emitted (st_trace (register_intent (IsIntent i) h need_self s).2)
     = emitted (st_trace s) ++ [m] /\
     open_intent_envelope m = as_opened (namespaced (st_self s) i)) /\
  forall i', as_opened i = as_opened i' -> i = i'.
Proof.
  split.
  - exists (Msg "register_intent" (intent_dict (namespaced (st_self s) i))).
    split.
    + destruct h as [h|].
      * rewrite register_intent_bound_run, add_event_with_handler_run.
        cbv zeta. destruct (events _); simpl;
          unfold emitted; by rewrite omap_app.
      * replace (register_intent (IsIntent i) None need_self s)
          with (register_intent (IsIntent i) None false s) by done.
        rewrite register_intent_unbound_run. simpl.
        unfold emitted. by rewrite omap_app.
    + unfold open_intent_envelope, as_opened, intent_dict. simpl.
      reflexivity.
  - intros i' Heq. destruct i, i'. unfold as_opened in Heq. simpl in Heq.
    by simplify_eq.
Qed.

End Core.

(** ** The properties on the sample inputs *)

(** C1, evaluated.  [handle_fail] raises: the wrapper publishes
    [handler.start], the spoken error, [handler.complete] with
    [exception], and then a second [handler.complete] without it. *)
Example wrapper_failure_emits_complete_twice :
  let s := Sample.initial ∅ Sample.demo in
  let ms := emitted (st_trace (wrapper_body nat Sample.behaviour "DemoSkill"
                                 Sample.handle_fail false Sample.utterance s).2) in
  ms = [handler_start "DemoSkill.handle_fail";
        speak_message
          "An error occurred while processing a request in DemoSkill" false;
        handler_complete_exception "DemoSkill.handle_fail"
                                   (Exn OtherError "boom");
        handler_complete "DemoSkill.handle_fail"] /\
  length (filter (fun m => msg_type m = "mycroft.skill.handler.complete") ms)
  = 2%nat.
Proof. vm_compute. split; reflexivity. Qed.

(** When the handler returns, there is one [handler.start] and one
    [handler.complete]. *)
Example wrapper_success_emits_complete_once :
  emitted (st_trace (wrapper_body nat Sample.behaviour "DemoSkill"
                       Sample.handle_query false Sample.utterance
                       (Sample.initial ∅ Sample.demo)).2)
  = [handler_start "DemoSkill.handle_query";
     handler_complete "DemoSkill.handle_query"].
Proof. vm_compute. reflexivity. Qed.

(** Handlers registered at 90, 10 and 50 are tried in the order 10, 50;
    the one at 50 succeeds and the one at 90 is not called. *)
Example fallback_chain_90_10_50 :
  let r := intent_failure_handler nat Sample.behaviour map_to_list
             Sample.utterance (Sample.initial Sample.chain Sample.demo) in
  r.1 = Ok tt /\
  calls (st_trace r.2)
  = [(Sample.fallback_low, [ArgMessage Sample.utterance], Return false);
     (Sample.fallback_mid, [ArgMessage Sample.utterance], Return true)] /\
  emitted (st_trace r.2)
  = [Msg "mycroft.skill.handler.start" {[ "handler" := VStr "fallback" ]};
     Msg "mycroft.skill.handler.complete"
         {[ "handler" := VStr "fallback";
            "fallback_handler" := VStr "MidSkill.handle_fallback" ]}].
Proof. vm_compute. repeat split; reflexivity. Qed.

(** No candidate handles the utterance and none raises an exception
    that cannot be rendered: the dispatcher reports exhaustion. *)
Example fallback_chain_exhausted :
  let r := intent_failure_handler nat Sample.behaviour map_to_list
             Sample.utterance
             (Sample.initial (<[10 := Sample.fallback_low]> ∅) Sample.demo) in
  r.1 = Ok tt /\
  emitted (st_trace r.2)
  = [Msg "mycroft.skill.handler.start" {[ "handler" := VStr "fallback" ]};
     Msg "complete_intent_failure" ∅;
     Msg "mycroft.skill.handler.complete"
         {[ "handler" := VStr "fallback";
            "exception" := VStr "No fallback could handle intent." ]}].
Proof. vm_compute. split; reflexivity. Qed.

(** C2. The dispatcher does not always end as the property says.  In
    the registry of [quiet_chain] the candidate at 10 returns a false
    value and the candidate at 20 raises [Exception(u'caf\xe9')]: no
    handler has succeeded, and yet the dispatcher emits neither
    [complete_intent_failure] nor [handler.complete].  The only message
    is [handler.start], and the dispatcher raises
    [UnicodeEncodeError]. *)
Example fallback_dispatch_ends_without_exhaustion :
  let r := intent_failure_handler nat Sample.behaviour_accent map_to_list
             Sample.utterance
             (Sample.initial Sample.quiet_chain Sample.demo) in
  sorted_items map_to_list Sample.quiet_chain
  = [(10, Sample.fallback_low); (20, Sample.fallback_accent)] /\
  calls (st_trace r.2)
  = [(Sample.fallback_low, [ArgMessage Sample.utterance], Return false);
     (Sample.fallback_accent, [ArgMessage Sample.utterance],
      Raise (Exn OtherError (Unicode [99; 97; 102; 233]%N)))] /\
  emitted (st_trace r.2)
  = [Msg "mycroft.skill.handler.start" {[ "handler" := VStr "fallback" ]}] /\
  r.1 = Raised (Exn UnicodeEncodeError "").
Proof. vm_compute. repeat split; reflexivity. Qed.

(** The dispatch over the registry of the three samples: it is sorted
    to 10, 50, 90 and the dispatcher returns. *)
Lemma fallback_dispatch_in_priority_order_witness :
  (forall reg : gmap Z handler, map_to_list reg ≡ₚ map_to_list reg) /\
  sorted_items map_to_list Sample.chain
  = [(10, Sample.fallback_low); (50, Sample.fallback_mid);
     (90, Sample.fallback_high)] /\
  StronglySorted (fun a b : Z * handler => a.1 < b.1)
                 (sorted_items map_to_list Sample.chain) /\
  (intent_failure_handler nat Sample.behaviour map_to_list Sample.utterance
     (Sample.initial Sample.chain Sample.demo)).1 = Ok tt.
Proof.
  split; [done|]. split; [by vm_compute|].
  pose proof (fallback_dispatch_in_priority_order nat Sample.behaviour
                map_to_list (fun reg => reflexivity (map_to_list reg))
                (Sample.initial Sample.chain Sample.demo) Sample.utterance)
    as H.
  simpl in H. destruct H as (_ & Hsorted & _). split; [exact Hsorted|].
  by vm_compute.
Defined.

(** Requesting priority 10 twice gives the slots 10 and 11. *)
Example register_fallback_10_twice :
  let s1 := (register_fallback nat Sample.fallback_low 10
               (Sample.initial ∅ Sample.demo)).2 in
  let s2 := (register_fallback nat Sample.fallback_mid 10 s1).2 in
  fallback_handlers s2 !! 10 = Some Sample.fallback_low /\
  fallback_handlers s2 !! 11 = Some Sample.fallback_mid /\
  size (fallback_handlers s2) = 2%nat /\
  instance_fallback_handlers (st_self s2)
  = [Sample.fallback_low; Sample.fallback_mid].
Proof. vm_compute. repeat split; reflexivity. Qed.

(** A second registrant at 10 lands at 11 and the first keeps 10. *)
Lemma register_fallback_probes_to_free_slot_witness :
  (forall reg : gmap Z handler, map_to_list reg ≡ₚ map_to_list reg) /\
  fallback_handlers
    (_register_fallback nat Sample.fallback_mid 10 Sample.bound).2 !! 11
  = Some Sample.fallback_mid /\
  fallback_handlers
    (_register_fallback nat Sample.fallback_mid 10 Sample.bound).2 !! 10
  = Some Sample.fallback_low.
Proof.
  split; [done|].
  pose proof (register_fallback_probes_to_free_slot nat map_to_list
                (fun reg => reflexivity (map_to_list reg))
                Sample.bound Sample.fallback_mid 10) as H.
  simpl in H.
  destruct H as (_ & _ & _ & _ & _ & Hslot & Hkeep & _).
  split; [exact Hslot|]. apply Hkeep. by vm_compute.
Defined.

(** Of two entries that hold the same function, one call removes
    one. *)
Lemma remove_fallback_deletes_first_match_witness :
  (forall reg : gmap Z handler, map_to_list reg ≡ₚ map_to_list reg) /\
  (remove_fallback nat map_to_list Sample.shared_answer Sample.shared).1
  = Ok tt /\
  size (fallback_handlers
          (remove_fallback nat map_to_list Sample.shared_answer
                           Sample.shared).2) = 1%nat.
Proof.
  split; [done|].
  pose proof (remove_fallback_deletes_first_match nat map_to_list
                (fun reg => reflexivity (map_to_list reg))
                Sample.shared Sample.shared_answer) as H.
  cbv zeta in H. destruct H as (Hok & _ & _ & _ & [Hdel|Hnone]).
  - split; [exact Hok|].
    destruct Hdel as (pre & priority & post & _ & _ & _ & _ & _ & _ & Hsize & _).
    assert (Hs : size (fallback_handlers Sample.shared) = 2%nat)
      by (by vm_compute).
    rewrite Hs in Hsize. lia.
  - exfalso. destruct Hnone as (Hnone & _). by apply (Hnone 10).
Defined.

(** Removing a handler that is not registered leaves the registry as it
    is and logs a warning. *)
Example remove_unregistered_fallback :
  let r := remove_fallback nat map_to_list Sample.fallback_broken
             (Sample.initial Sample.chain Sample.demo) in
  r.1 = Ok tt /\ fallback_handlers r.2 = Sample.chain /\
  st_trace r.2 = [EvLog LWarning "Could not remove fallback!"].
Proof. vm_compute. repeat split; reflexivity. Qed.

(** The candidate at 10 raises; its call is followed by the log line
    and by the call of the candidate at 50. *)
Lemma fallback_exception_is_contained_witness :
  sorted_items map_to_list Sample.broken_chain
  = [] ++ (10, Sample.fallback_broken) :: [(50, Sample.fallback_mid)] /\
  (Sample.behaviour Sample.fallback_broken [ArgMessage Sample.utterance] 0%nat).1
  = Raise (Exn OtherError "no network") /\
  let r := intent_failure_handler nat Sample.behaviour map_to_list
             Sample.utterance
             (Sample.initial Sample.broken_chain Sample.demo) in
  r.1 = Ok tt /\
  exists tl,
    st_trace r.2
    = [EvEmit (handler_start "fallback");
       EvCall Sample.fallback_broken [ArgMessage Sample.utterance]
              (Raise (Exn OtherError "no network"));
       EvLog LInfo "Exception in fallback: no network";
       EvCall Sample.fallback_mid [ArgMessage Sample.utterance] (Return true)]
      ++ tl.
Proof.
  split; [by vm_compute|]. split; [done|].
  pose proof (fallback_exception_is_contained nat Sample.behaviour
                map_to_list
                (Sample.initial Sample.broken_chain Sample.demo)
                Sample.utterance) as H.
  cbv zeta in H.
  split; [by vm_compute|].
  destruct (H [] (10, Sample.fallback_broken) [(50, Sample.fallback_mid)]
              (Exn OtherError "no network") "no network")
    as (rest_events & Htrace & tl & Hrest).
  - by vm_compute.
  - constructor.
  - done.
  - done.
  - exists tl. rewrite Htrace, Hrest. done.
Defined.

(** C7. An exception of a fallback handler can leave the dispatcher.
    In the registry of [accent_chain] the candidate at 10 raises
    [Exception(u'caf\xe9')] and the candidate at 50 would handle the
    utterance.  The [except] block catches the exception, but [str(e)]
    in its log statement raises [UnicodeEncodeError]: nothing is
    logged, the candidate at 50 is not called and the dispatcher
    raises. *)
Example fallback_exception_leaves_dispatcher :
  let r := intent_failure_handler nat Sample.behaviour_accent map_to_list
             Sample.utterance
             (Sample.initial Sample.accent_chain Sample.demo) in
  sorted_items map_to_list Sample.accent_chain
  = [(10, Sample.fallback_accent); (50, Sample.fallback_mid)] /\
  (Sample.behaviour_accent Sample.fallback_mid [ArgMessage Sample.utterance]
     1%nat).1 = Return true /\
  st_trace r.2
  = [EvEmit (Msg "mycroft.skill.handler.start"
                 {[ "handler" := VStr "fallback" ]});
     EvCall Sample.fallback_accent [ArgMessage Sample.utterance]
            (Raise (Exn OtherError (Unicode [99; 97; 102; 233]%N)))] /\
  r.1 = Raised (Exn UnicodeEncodeError "").
Proof. vm_compute. repeat split; reflexivity. Qed.

(** C5 as stated fails: [callback] is declared with no argument and is
    bound without owner injection, and the wrapper does not call it. *)
Lemma zero_argument_handler_is_not_called :
  let r := wrapper_body nat Sample.behaviour "DemoSkill" Sample.callback
             false Sample.utterance (Sample.initial ∅ Sample.demo) in
  h_argspec Sample.callback = 0%nat /\
  calls (st_trace r.2) = [] /\
  emitted (st_trace r.2)
  = [handler_start "callback";
     speak_message
       "An error occurred while processing a request in DemoSkill" false;
     handler_complete_exception "callback" (Exn TypeError "");
     handler_complete "callback"].
Proof. vm_compute. repeat split; reflexivity. Qed.

(** [handle_tick] declares [self] alone and is called with no
    argument. *)
Lemma no_owner_single_argument_called_bare_witness :
  h_argspec Sample.handle_tick = 1%nat /\
  exists delta,
    st_trace (wrapper_body nat Sample.behaviour "DemoSkill" Sample.handle_tick
                false Sample.utterance (Sample.initial ∅ Sample.demo)).2
    = [] ++ delta /\
    calls delta = [(Sample.handle_tick, [], Return true)].
Proof.
  split; [done|].
  destruct (no_owner_single_argument_called_bare nat Sample.behaviour
              "DemoSkill" Sample.handle_tick Sample.utterance
              (Sample.initial ∅ Sample.demo)) as (delta & Htrace & Hone & _).
  exists delta. split; [exact Htrace|]. by apply Hone.
Defined.

(** [handler_method] raises [TypeError] on two arguments and is then
    called with the owner alone. *)
Lemma owner_injected_zero_arguments_two_then_one_witness :
  h_argspec Sample.handler_method = 0%nat /\
  exists delta,
    st_trace (wrapper_body nat Sample.behaviour "DemoSkill"
                Sample.handler_method true Sample.utterance
                (Sample.initial ∅ Sample.demo)).2
    = [] ++ delta /\
    calls delta
    = [(Sample.handler_method,
        [ArgSelf "DemoSkill"; ArgMessage Sample.utterance],
        Raise (Exn TypeError
                   "handler_method() takes exactly 1 argument (2 given)"));
       (Sample.handler_method, [ArgSelf "DemoSkill"], Return true)].
Proof.
  split; [done|].
  destruct (owner_injected_zero_arguments_two_then_one nat Sample.behaviour
              "DemoSkill" Sample.handler_method Sample.utterance
              (Sample.initial ∅ Sample.demo) eq_refl)
    as (delta & second & Htrace & Hcalls & Hyes & _).
  exists delta. split; [exact Htrace|].
  rewrite Hcalls, Hyes; [done|]. by eexists.
Defined.

(** An error that is not a [TypeError] is not followed by the second
    call. *)
Example owner_injected_other_error_not_retried :
  calls (st_trace (wrapper_body nat Sample.behaviour "DemoSkill"
                     Sample.failing_method true Sample.utterance
                     (Sample.initial ∅ Sample.demo)).2)
  = [(Sample.failing_method,
      [ArgSelf "DemoSkill"; ArgMessage Sample.utterance],
      Raise (Exn OtherError "boom"))].
Proof. vm_compute. reflexivity. Qed.

(** C4. Shutdown does not always take the skill's own fallback out of
    the registry.  DemoSkill registered [shared_answer] at priority 20,
    and another skill had registered the same function at priority 10.
    The shutdown of DemoSkill completes and its list of fallbacks is
    empty afterwards, but the entry it has deleted is the one at 10,
    which the other skill made: the registry still holds the handler
    in the very entry DemoSkill made, at 20. *)
Lemma shutdown_leaves_shared_fallback :
  let r := FallbackSkill_shutdown nat Sample.behaviour map_to_list
             Sample.shared in
  r.1 = Ok tt /\
  instance_fallback_handlers (st_self Sample.shared) = [Sample.shared_answer] /\
  fallback_handlers Sample.shared !! 20 = Some Sample.shared_answer /\
  fallback_handlers r.2 !! 20 = Some Sample.shared_answer /\
  fallback_handlers Sample.shared !! 10 = Some Sample.shared_answer /\
  fallback_handlers r.2 !! 10 = None /\
  instance_fallback_handlers (st_self r.2) = [] /\
  events (st_self r.2) = None.
Proof. vm_compute. repeat split; reflexivity. Qed.

(** DemoSkill with one binding and one fallback of its own: after
    shutdown neither is left. *)
Lemma shutdown_unbinds_events_and_own_fallbacks_witness :
  (forall reg : gmap Z handler, map_to_list reg ≡ₚ map_to_list reg) /\
  events (st_self Sample.bound) = Some [("7:QueryIntent", Sample.query_wrapper)] /\
  bindings_wf nat Sample.bound /\
  (forall h, h ∈ instance_fallback_handlers (st_self Sample.bound) ->
     (holders (fallback_handlers Sample.bound) h
      <= occurrences h (instance_fallback_handlers (st_self Sample.bound)))%nat) /\
  let r := FallbackSkill_shutdown nat Sample.behaviour map_to_list
             Sample.bound in
  r.1 = Ok tt /\
  (forall e', Sample.query_wrapper ∉ delivered_to nat r.2 e') /\
  (forall p, fallback_handlers r.2 !! p <> Some Sample.fallback_low).
Proof.
  assert (Hwf : bindings_wf nat Sample.bound).
  { split.
    - apply NoDup_singleton.
    - intros evs e f e' [= <-] Hin Hsub.
      apply list_elem_of_singleton in Hin. apply list_elem_of_singleton in Hsub.
      congruence. }
  assert (Hcount : forall h,
            h ∈ instance_fallback_handlers (st_self Sample.bound) ->
            (holders (fallback_handlers Sample.bound) h
             <= occurrences h
                  (instance_fallback_handlers (st_self Sample.bound)))%nat).
  { intros h Hh. apply list_elem_of_singleton in Hh. subst h.
    vm_compute. lia. }
  split; [done|]. split; [done|]. split; [exact Hwf|]. split; [exact Hcount|].
  pose proof (shutdown_unbinds_events_and_own_fallbacks nat Sample.behaviour
                map_to_list (fun reg => reflexivity (map_to_list reg))
                Sample.bound [("7:QueryIntent", Sample.query_wrapper)]
                eq_refl Hwf Hcount) as H.
  cbv zeta in H. destruct H as (Hok & Hevents & Hfallbacks & _).
  split; [exact Hok|]. split.
  - intros e'. apply (Hevents "7:QueryIntent" Sample.query_wrapper e').
    apply list_elem_of_singleton. reflexivity.
  - intros p. apply Hfallbacks. apply list_elem_of_singleton. reflexivity.
Defined.

(** The state of a skill that has bound a handler and registered a
    fallback through [add_event] and [register_fallback] satisfies what
    the property asks of it. *)
Example bindings_inv_after_add_event :
  let s0 := Sample.initial ∅ Sample.demo in
  let s1 := (add_event nat "7:QueryIntent" (Some Sample.handle_query) false
               s0).2 in
  bindings_inv nat s0 /\ bindings_inv nat s1 /\ bindings_wf nat s1 /\
  st_listeners s1 = [("7:QueryIntent", Sample.query_wrapper)] /\
  events (st_self s1) = Some [("7:QueryIntent", Sample.query_wrapper)].
Proof.
  intros s0 s1.
  assert (H0 : bindings_inv nat s0).
  { split_and!.
    - constructor.
    - intros e f Hin. by apply not_elem_of_nil in Hin.
    - intros evs e f [= <-] Hin. by apply not_elem_of_nil in Hin. }
  assert (H1 : bindings_inv nat s1)
    by (by apply add_event_keeps_bindings_inv).
  split_and!; try done. by apply bindings_inv_wf.
Qed.

(** A second shutdown does not complete: [events] is [None]. *)
Example shutdown_twice_raises :
  let s1 := (FallbackSkill_shutdown nat Sample.behaviour map_to_list
               Sample.bound).2 in
  (FallbackSkill_shutdown nat Sample.behaviour map_to_list s1).1
  = Raised (Exn TypeError "'NoneType' object is not iterable").
Proof. vm_compute. reflexivity. Qed.

(** [weekday.entity] is registered under the name [7:weekday]; a file
    name without the marker is refused and nothing is published. *)
Example register_entity_file_weekday :
  let s := Sample.initial ∅ Sample.demo in
  register_entity_file nat Sample.path_join "weekday.entity" s
  = (Ok tt,
     State [EvEmit (Msg "padatious:register_entity"
                        {[ "file_name" :=
                             VStr "/opt/mycroft/skills/demo/vocab/en-us/weekday.entity";
                           "name" := VStr "7:weekday" ]})]
           [] 0 ∅ Sample.demo 0%nat) /\
  register_entity_file nat Sample.path_join "weekday.txt" s
  = (Raised (Exn ValueError "Invalid entity filename: weekday.txt"), s).
Proof. vm_compute. split; reflexivity. Qed.

(** [enable_intent] publishes the registration of [WeekdayIntent] again
    and binds nothing. *)
Example enable_intent_weekday :
  let s := Sample.initial ∅ Sample.demo in
  let r := enable_intent nat "WeekdayIntent" s in
  r.1 = Ok tt /\
  emitted (st_trace r.2)
  = [Msg "register_intent" (intent_dict Sample.weekday)] /\
  st_listeners r.2 = [] /\
  events (st_self r.2) = Some [] /\
  registered_intents (st_self r.2) = [("WeekdayIntent", Sample.weekday)].
Proof. vm_compute. repeat split; reflexivity. Qed.

(** *** Further properties on the sample inputs *)

(** Enabling [DateIntent], recorded second: one error line for the
    entry passed, then the registration. *)
Lemma enable_intent_logs_error_per_skipped_entry_witness :
  ("DateIntent" ∉ [("WeekdayIntent", Sample.weekday)].*1) /\
  let s := Sample.initial ∅ Sample.two_intents in
  (enable_intent nat "DateIntent" s).1 = Ok tt /\
  st_trace (enable_intent nat "DateIntent" s).2
  = [could_not_enable "DateIntent";
     EvEmit (Msg "register_intent"
                 (intent_dict
                    (MkIntent "7:DateIntent" [("DateKeyword", "DateKeyword")]
                              [] [])));
     EvLog LDebug "Enabling intent DateIntent"].
Proof.
  assert (Hn : "DateIntent" ∉ [("WeekdayIntent", Sample.weekday)].*1).
  { intros Hin. apply list_elem_of_singleton in Hin. discriminate Hin. }
  split; [exact Hn|].
  pose proof (enable_intent_logs_error_per_skipped_entry nat "DateIntent"
                (Sample.initial ∅ Sample.two_intents)
                [("WeekdayIntent", Sample.weekday)] Hn) as [_ H].
  exact (H (MkIntent "7:DateIntent" [("DateKeyword", "DateKeyword")] [] [])
           [] eq_refl).
Defined.

(** DemoSkill registers [DateIntent], disables it and enables it
    again. *)
Lemma disable_then_enable_republishes_witness :
  let s := Sample.initial ∅ Sample.demo in
  events (st_self s) = Some [] /\
  ("DateIntent" ∉ (registered_intents (st_self s)).*1) /\
  let s1 := (register_intent nat (IsIntent Sample.date_intent)
               (Some Sample.handle_query) false s).2 in
  let s2 := (disable_intent nat "DateIntent" s1).2 in
  let r := enable_intent nat "DateIntent" s2 in
  r.1 = Ok tt /\
  emitted (st_trace r.2)
  = [Msg "register_intent"
         (intent_dict (MkIntent "7:DateIntent"
                                [("DateKeyword", "DateKeyword")] [] []));
     detach_intent_message "7:DateIntent";
     Msg "register_intent"
         (intent_dict (MkIntent "7:DateIntent"
                                [("DateKeyword", "DateKeyword")] [] []))] /\
  st_listeners r.2 = st_listeners s1.
Proof.
  assert (Hn : "DateIntent"
               ∉ (registered_intents
                    (st_self (Sample.initial ∅ Sample.demo))).*1).
  { intros Hin. apply list_elem_of_singleton in Hin. discriminate Hin. }
  split; [reflexivity|]. split; [exact Hn|].
  pose proof (disable_then_enable_republishes nat Sample.date_intent
                Sample.handle_query false (Sample.initial ∅ Sample.demo) []
                eq_refl Hn) as H.
  cbv zeta in H. destruct H as (Hok & Hem & _ & _ & _ & Hlis & _).
  split; [exact Hok|]. split; [exact Hem | exact Hlis].
Defined.

(** DemoSkill detaches its one recorded intent under the name it was
    published with. *)
Lemma detach_withdraws_published_intents_witness :
  let s := Sample.initial ∅ Sample.demo in
  registry_named (st_self s) /\
  (detach nat s).1 = Ok tt /\
  st_trace (detach nat s).2
  = [EvEmit (detach_intent_message "7:WeekdayIntent")].
Proof.
  assert (Hnamed : registry_named (st_self (Sample.initial ∅ Sample.demo))).
  { constructor; [reflexivity | constructor]. }
  split; [exact Hnamed|].
  pose proof (detach_withdraws_published_intents nat
                (Sample.initial ∅ Sample.demo) Hnamed) as (Hok & Htr & _).
  split; [exact Hok | exact Htr].
Defined.

(** A handler declared with three arguments is not called, with or
    without the owner. *)
Example three_argument_handler_is_not_called :
  let h := Handler 8 "handle_three" (Some "DemoSkill") 3 in
  let s := Sample.initial ∅ Sample.demo in
  calls (st_trace (wrapper_body nat Sample.behaviour "DemoSkill" h true
                     Sample.utterance s).2) = [] /\
  calls (st_trace (wrapper_body nat Sample.behaviour "DemoSkill" h false
                     Sample.utterance s).2) = [].
Proof. vm_compute. split; reflexivity. Qed.

(** The [stop] of the skill raises: shutdown completes, and the log
    has the line. *)
Lemma shutdown_contains_stop_failure_witness :
  events (st_self Sample.stuck) = Some [("7:QueryIntent", Sample.query_wrapper)] /\
  let r := MycroftSkill_shutdown nat Sample.behaviour Sample.stuck in
  r.1 = Ok tt /\
  st_trace r.2
  = [EvSettingsStore "DemoSkill";
     EvSettingsNotAlive "DemoSkill";
     EvEmit (Msg "detach_skill" {[ "skill_id" := VStr "7:" ]});
     EvCall Sample.failing_method [] (Raise (Exn OtherError "boom"));
     EvLog LError "Failed to stop skill: DemoSkill"] /\
  st_listeners r.2 = [].
Proof.
  split; [reflexivity|].
  pose proof (shutdown_contains_stop_failure nat Sample.behaviour Sample.stuck
                [("7:QueryIntent", Sample.query_wrapper)] eq_refl) as H.
  cbv zeta in H. destruct H as (Hok & Htr & _ & Hlis & _).
  split; [exact Hok|]. split; [exact Htr | exact Hlis].
Defined.

(** The subscription of ClockSkill is still on the bus when DemoSkill
    has shut down. *)
Lemma shutdown_leaves_other_subscriptions_witness :
  (forall reg : gmap Z handler, map_to_list reg ≡ₚ map_to_list reg) /\
  events (st_self Sample.crowded)
  = Some [("7:QueryIntent", Sample.query_wrapper)] /\
  ("3:TimeIntent", Sample.other_wrapper) ∈ st_listeners Sample.crowded /\
  (("3:TimeIntent", Sample.other_wrapper)
   ∉ [("7:QueryIntent", Sample.query_wrapper)]) /\
  (FallbackSkill_shutdown nat Sample.behaviour map_to_list Sample.crowded).1
  = Ok tt /\
  ("3:TimeIntent", Sample.other_wrapper)
  ∈ st_listeners (FallbackSkill_shutdown nat Sample.behaviour map_to_list
                    Sample.crowded).2.
Proof.
  assert (Hin : ("3:TimeIntent", Sample.other_wrapper)
                ∈ st_listeners Sample.crowded) by left.
  assert (Hout : ("3:TimeIntent", Sample.other_wrapper)
                 ∉ [("7:QueryIntent", Sample.query_wrapper)]).
  { intros H. apply list_elem_of_singleton in H. discriminate H. }
  split; [done|]. split; [reflexivity|]. split; [exact Hin|].
  split; [exact Hout|].
  exact (shutdown_leaves_other_subscriptions nat Sample.behaviour map_to_list
           (fun reg => reflexivity (map_to_list reg)) Sample.crowded
           [("7:QueryIntent", Sample.query_wrapper)]
           ("3:TimeIntent", Sample.other_wrapper) eq_refl Hin Hout).
Defined.

(** DemoSkill binds [handle_tick] after its shutdown. *)
Lemma add_event_after_shutdown_leaves_subscription_witness :
  events (st_self Sample.bound) = Some [("7:QueryIntent", Sample.query_wrapper)] /\
  let s := (MycroftSkill_shutdown nat Sample.behaviour Sample.bound).2 in
  let r := add_event nat "7:TickIntent" (Some Sample.handle_tick) false s in
  r.1 = Raised (Exn AttributeError
                    "'NoneType' object has no attribute 'append'") /\
  st_listeners r.2
  = [("7:TickIntent", Wrapper 1 "DemoSkill" Sample.handle_tick false)] /\
  (MycroftSkill_shutdown nat Sample.behaviour r.2).1
  = Raised (Exn TypeError "'NoneType' object is not iterable") /\
  st_listeners (MycroftSkill_shutdown nat Sample.behaviour r.2).2
  = st_listeners r.2.
Proof.
  split; [reflexivity|].
  pose proof (add_event_after_shutdown_leaves_subscription nat
                Sample.behaviour Sample.bound
                [("7:QueryIntent", Sample.query_wrapper)] "7:TickIntent"
                Sample.handle_tick false eq_refl) as H.
  cbv zeta in H. destruct H as (Hraise & Hlis & _ & Hagain & Hsame & _).
  split; [exact Hraise|]. split; [exact Hlis|].
  split; [exact Hagain | exact Hsame].
Defined.

(** A fourth fallback asks for priority 10, is stored at 11 and is
    removed again. *)
Lemma register_then_remove_fallback_restores_registry_witness :
  (forall reg : gmap Z handler, map_to_list reg ≡ₚ map_to_list reg) /\
  (forall q, Sample.chain !! q <> Some Sample.fallback_broken) /\
  let s := Sample.initial Sample.chain Sample.demo in
  let s1 := (register_fallback nat Sample.fallback_broken 10 s).2 in
  fallback_handlers s1 !! 11 = Some Sample.fallback_broken /\
  fallback_handlers (remove_fallback nat map_to_list Sample.fallback_broken s1).2
  = Sample.chain /\
  instance_fallback_handlers
    (st_self (remove_fallback nat map_to_list Sample.fallback_broken s1).2)
  = [Sample.fallback_broken].
Proof.
  assert (Hnot : forall q, fallback_handlers
                             (Sample.initial Sample.chain Sample.demo) !! q
                           <> Some Sample.fallback_broken).
  { intros q Hq. simpl in Hq. unfold Sample.chain in Hq.
    apply lookup_insert_Some in Hq as [[_ Hq]|[_ Hq]]; [discriminate Hq|].
    apply lookup_insert_Some in Hq as [[_ Hq]|[_ Hq]]; [discriminate Hq|].
    apply lookup_insert_Some in Hq as [[_ Hq]|[_ Hq]]; [discriminate Hq|].
    rewrite lookup_empty in Hq. discriminate Hq. }
  split; [done|]. split; [exact Hnot|].
  pose proof (register_then_remove_fallback_restores_registry nat map_to_list
                (fun reg => reflexivity (map_to_list reg))
                (Sample.initial Sample.chain Sample.demo)
                Sample.fallback_broken 10 Hnot) as H.
  cbv zeta in H. destruct H as (_ & _ & Hreg & _ & Hinst & _).
  split; [by vm_compute|]. split; [exact Hreg | exact Hinst].
Defined.

(** DemoSkill takes its own fallback out; the one of HighSkill stays at
    priority 90. *)
Lemma remove_instance_handlers_leaves_other_handlers_witness :
  (forall reg : gmap Z handler, map_to_list reg ≡ₚ map_to_list reg) /\
  fallback_handlers Sample.crowded !! 90 = Some Sample.fallback_high /\
  (Sample.fallback_high
   ∉ instance_fallback_handlers (st_self Sample.crowded)) /\
  let r := remove_instance_handlers nat map_to_list Sample.crowded in
  r.1 = Ok tt /\
  fallback_handlers r.2 !! 90 = Some Sample.fallback_high /\
  instance_fallback_handlers (st_self r.2) = [].
Proof.
  assert (Hq : fallback_handlers Sample.crowded !! 90
               = Some Sample.fallback_high) by (by vm_compute).
  assert (Hout : Sample.fallback_high
                 ∉ instance_fallback_handlers (st_self Sample.crowded)).
  { intros H. apply list_elem_of_singleton in H. discriminate H. }
  split; [done|]. split; [exact Hq|]. split; [exact Hout|].
  pose proof (remove_instance_handlers_leaves_other_handlers nat map_to_list
                (fun reg => reflexivity (map_to_list reg)) Sample.crowded 90
                Sample.fallback_high Hq Hout) as H.
  cbv zeta in H. destruct H as (Hok & Hkept & Hempty & _).
  split; [exact Hok|]. split; [exact Hkept | exact Hempty].
Defined.

(** A new skill registers an intent and an intent file: what shutdown
    asks of the bus holds afterwards. *)
Lemma registrations_keep_bindings_inv_witness :
  let s := Sample.initial ∅ Sample.demo in
  bindings_inv nat s /\
  (register_intent nat (IsIntent Sample.date_intent)
     (Some Sample.handle_query) false s).1 = Ok tt /\
  bindings_inv nat
    (register_intent nat (IsIntent Sample.date_intent)
       (Some Sample.handle_query) false s).2 /\
  bindings_inv nat
    (register_intent_file nat Sample.path_join "weather.intent"
       (Some Sample.handle_query) false s).2.
Proof.
  assert (H0 : bindings_inv nat (Sample.initial ∅ Sample.demo)).
  { split; [constructor|]. split.
    - intros e f Hin. apply not_elem_of_nil in Hin. destruct Hin.
    - intros evs e f Hevs Hin. injection Hevs as <-.
      apply not_elem_of_nil in Hin. destruct Hin. }
  split; [exact H0|]. split; [reflexivity|].
  pose proof (registrations_keep_bindings_inv nat Sample.path_join
                (IsIntent Sample.date_intent) "weather.intent" "WeekdayIntent"
                Sample.handle_query false (Sample.initial ∅ Sample.demo) H0)
    as (Hintent & Hfile & _).
  split; [exact (Hintent eq_refl) | exact (Hfile eq_refl)].
Defined.

(** DemoSkill has one decorated intent and one decorated intent
    file. *)
Lemma register_decorated_binds_with_owner_witness :
  let s := Sample.initial ∅ Sample.demo in
  events (st_self s) = Some [] /\
  let r := _register_decorated nat Sample.path_join
             [(IsIntentBuilder Sample.date_intent, Sample.handler_method)]
             [("weather.intent", Sample.handler_method)] s in
  r.1 = Ok ([], []) /\
  st_listeners r.2
  = [("7:DateIntent", Wrapper 0 "DemoSkill" Sample.handler_method true);
     ("7:weather.intent", Wrapper 1 "DemoSkill" Sample.handler_method true)].
Proof.
  split; [reflexivity|].
  pose proof (register_decorated_binds_with_owner nat Sample.path_join
                [(IsIntentBuilder Sample.date_intent, Sample.handler_method)]
                [("weather.intent", Sample.handler_method)]
                (Sample.initial ∅ Sample.demo) [] eq_refl) as H.
  cbv zeta in H. destruct H as [H _].
  assert (Hvalid : Forall (fun ph : intent_parser * handler => ph.1 <> IsOther)
                     [(IsIntentBuilder Sample.date_intent,
                       Sample.handler_method)]).
  { constructor; [|constructor]. intros Heq. discriminate Heq. }
  destruct (H Hvalid) as (Hok & Hlis & _).
  split; [exact Hok | exact Hlis].
Defined.

(** A vocabulary file of three lines with two bars: five messages, the
    one for the line without text with an empty entry; under another
    ending nothing is published. *)
Example load_vocab_from_file_greeting :
  let s := Sample.initial ∅ Sample.demo in
  emitted (st_trace (load_vocab_from_file nat "vocab/en-us/Greeting.voc"
                       "Greeting" Sample.voc_file s).2)
  = [Msg "register_vocab" {[ "start" := VStr "hello"; "end" := VStr "Greeting" ]};
     Msg "register_vocab" {[ "start" := VStr "hi"; "end" := VStr "Greeting";
                             "alias_of" := VStr "hello" ]};
     Msg "register_vocab" {[ "start" := VStr "good morning";
                             "end" := VStr "Greeting";
                             "alias_of" := VStr "hello" ]};
     Msg "register_vocab" {[ "start" := VStr ""; "end" := VStr "Greeting" ]};
     Msg "register_vocab" {[ "start" := VStr "bye"; "end" := VStr "Greeting" ]}] /\
  load_vocab_from_file nat "vocab/en-us/Greeting.txt" "Greeting"
    Sample.voc_file s = (Ok tt, s).
Proof. vm_compute. split; reflexivity. Qed.
